(** * glog.py: a Google-style logging wrapper

    A shallow embedding of [glog.py]: the sampling / first-N filter built by
    [log_wrapper], the log line formatter [GlogFormatter.format], and the
    check primitives ([check], [check_eq], ...) with their failure report
    [check_failed].

    Python integers are [Z]; Python floats (the clock, the random draws) are
    rationals [Q], and an operation on floats is the exact operation followed
    by the rounding to the nearest double [round_double]; [str] objects are
    [string]; a [dict] is a [gmap]; an exception is a constructor of [exn]
    carried by the [Raise] result. *)

From Stdlib Require Import ZArith QArith Qround Qpower Lia Lqa Ascii String.
From stdpp Require Import base strings list gmap pretty.

Local Open Scope string_scope.
Local Open Scope Z_scope.

(** ** Python values, exceptions, results *)

(** The values that travel as arguments of a logging call. *)
Inductive PyVal :=
  | PyNone
  | PyInt (n : Z)
  | PyStr (s : string).

(** [record.args]: [None] or a tuple of positional arguments. *)
Inductive PyArgs :=
  | ArgsNone
  | ArgsTuple (l : list PyVal).

Inductive exn :=
  | FailedCheckException (message : string)
  | TypeError
  | ValueError
  | IndexError
  | AttributeError.

Inductive res (A : Type) :=
  | Ret (a : A)
  | Raise (e : exn).
Arguments Ret {A} a.
Arguments Raise {A} e.

(** [str(v)] *)
Definition py_str (v : PyVal) : string :=
  match v with
  | PyNone => "None"
  | PyInt n => pretty n
  | PyStr s => s
  end.

(** [int(x)] of a float: truncation toward zero. *)
Definition py_int (x : Q) : Z := Z.quot (Qnum x) (Z.pos (Qden x)).

(** [a < b] on numbers, as a boolean.  Python compares an [int] with a
    [float] by their exact values. *)
Definition Qltb (a b : Q) : bool := negb (Qle_bool b a).

(** ** Floats *)

(** [n * 2^k] for [k >= 0], and [n] for [k < 0]. *)
Definition shift_up (n k : Z) : Z := n * 2 ^ Z.max k 0.

(** The exponent of the positive number [p / q]: the [e] with
    [2^e <= p / q < 2^(e+1)]. *)
Definition float_exponent (p q : positive) : Z :=
  let e0 := Z.log2 (Z.pos p) - Z.log2 (Z.pos q) in
  if shift_up (Z.pos p) (- e0) <? shift_up (Z.pos q) e0 then e0 - 1 else e0.

(** The integer nearest to [num / den], the even one of two that are
    equally near. *)
Definition round_half_even (num den : Z) : Z :=
  let f := num / den in
  let r := num mod den in
  if 2 * r <? den then f
  else if den <? 2 * r then f + 1
  else if Z.even f then f else f + 1.

(** The double nearest to the positive number [p / q]: a significand of 53
    bits, ties to the even one.  The exponent is not bounded: the result is
    the one of the machine as long as that neither overflows nor is
    subnormal. *)
Definition round_double_pos (p q : positive) : Q :=
  let e := float_exponent p q in
  let n := round_half_even (shift_up (Z.pos p) (52 - e))
             (shift_up (Z.pos q) (e - 52)) in
  Qmake (shift_up n (e - 52)) (Z.to_pos (shift_up 1 (52 - e))).

(** The double nearest to a number. *)
Definition round_double (x : Q) : Q :=
  match Qnum x with
  | Z0 => 0
  | Z.pos p => round_double_pos p (Qden x)
  | Z.neg p => - round_double_pos p (Qden x)
  end.

(** The numbers that are doubles. *)
Definition is_double (x : Q) : Prop := (round_double x == x)%Q.

(** [a * b] and [a - b] on floats, and the float of an [int]. *)
Definition float_mul (a b : Q) : Q := round_double (a * b).
Definition float_sub (a b : Q) : Q := round_double (a - b).
Definition float_of_int (n : Z) : Q := round_double (inject_Z n).

(** [time.struct_time], the fields the formatter reads. *)
Record struct_time := {
  tm_mon : Z;
  tm_mday : Z;
  tm_hour : Z;
  tm_min : Z;
  tm_sec : Z;
}.

(** What the interpreter and the standard library provide to [glog.py]. *)
Class Platform := {
  (** [hashlib.md5(s.encode("utf-8")).hexdigest()] *)
  md5_hexdigest : string -> string;
  (** [msg % args] on a [str] *)
  str_mod : string -> PyArgs -> res string;
  (** [time.localtime(t)] *)
  time_localtime : Q -> struct_time;
  (** the path of [glog.py] as the interpreter loaded it *)
  glog_file : string;
  (** [os.getpid()], [None] when the platform has none *)
  os_getpid : option Z;
}.

(** ** The process state *)

(** [logging.LogRecord], the attributes [glog.py] sets or reads. *)
Record LogRecord := {
  name : string;
  levelno : Z;
  pathname : string;
  lineno : Z;
  msg : string;
  args : PyArgs;
  created : Q;
  process : option Z;
}.

(** [counters] is the heap of [defaultdict(int)] objects allocated by
    [log_wrapper], addressed by position; [random_random i] is the value the
    i-th coming call of [random.random()] returns and [time_time i] the
    i-th coming reading of the clock; [handled] lists the records given to
    the handler, oldest first. *)
Record World := {
  counters : list (gmap string Z);
  random_random : nat -> Q;
  time_time : nat -> Q;
  handled : list LogRecord;
}.

Definition set_counters (c : list (gmap string Z)) (w : World) : World :=
  {| counters := c; random_random := random_random w;
     time_time := time_time w; handled := handled w |}.

Definition set_random (r : nat -> Q) (w : World) : World :=
  {| counters := counters w; random_random := r;
     time_time := time_time w; handled := handled w |}.

Definition set_time (t : nat -> Q) (w : World) : World :=
  {| counters := counters w; random_random := random_random w;
     time_time := t; handled := handled w |}.

Definition set_handled (h : list LogRecord) (w : World) : World :=
  {| counters := counters w; random_random := random_random w;
     time_time := time_time w; handled := h |}.

(** ** The sampling / first-N filter *)

(** The function object [conditional_log] returned by [log_wrapper(name)]:
    it closes over [name] and over its own [counter] dictionary. *)
Record Closure := {
  wrapped : string;
  counter : nat;
}.

(** [log_wrapper(name)]: [counter = defaultdict(int)] allocates a new
    dictionary and the closure is returned. *)
Definition log_wrapper (nm : string) (w : World) : Closure * World :=
  ({| wrapped := nm; counter := length (counters w) |},
   set_counters (counters w ++ [∅])%list w).

(** [kwargs] of a call; [None] for a keyword that was not passed. *)
Record Kwargs := {
  kw_sampling : option Z;
  kw_first_n : option Z;
}.

Definition no_kwargs : Kwargs := {| kw_sampling := None; kw_first_n := None |}.

(** What a call of [conditional_log] does: it returns without logging, it
    ends in the call [getattr(logging, name)( *args)], or it raises.  For
    [Forwarded] the description stops where glog's own code does, at this
    tail call: what the [logging] module then does with the arguments is
    not part of it. *)
Inductive Outcome :=
  | Suppressed
  | Forwarded (nm : string) (a : list PyVal)
  | Raised (e : exn).

(** [d[key]] on a [defaultdict(int)]: a missing key is inserted with 0. *)
Definition defaultdict_get (key : string) (d : gmap string Z) : Z * gmap string Z :=
  match d !! key with
  | Some v => (v, d)
  | None => (0, <[key := 0]> d)
  end.

(** [random.random()] *)
Definition draw (w : World) : Q * World :=
  (random_random w 0%nat, set_random (fun i => random_random w (S i)) w).

(** The [first_n] part of [conditional_log], on the closure's dictionary.
    The result is [inl] of the exception, or the dictionary after the step
    together with [true] when the call goes on to log. *)
Definition first_n_step `{Platform} (a : list PyVal) (first_n : Z)
    (d : gmap string Z) : exn + (bool * gmap string Z) :=
  match a !! 0%nat with
  | None => inl IndexError
  | Some (PyStr s) =>
      let key := md5_hexdigest s in
      let '(v, d) := defaultdict_get key d in
      if v >? first_n then inr (false, d)
      else inr (true, <[key := v + 1]> d)
  | Some _ => inl AttributeError
  end.

(** [conditional_log( *args, **kwargs)].  The draw is multiplied by 100 as
    a float, and [sampling] is compared with that rounded product.  The
    state returned with [Forwarded] is the state at the tail call. *)
Definition conditional_log `{Platform} (c : Closure) (a : list PyVal)
    (kwargs : Kwargs) (w : World) : Outcome * World :=
  let sampling := default 100 (kw_sampling kwargs) in
  let first_n := default (-1) (kw_first_n kwargs) in
  let '(sampled_out, w) :=
    if sampling <? 100 then
      let '(r, w) := draw w in
      (Qltb (inject_Z sampling) (float_mul r 100), w)
    else (false, w) in
  if sampled_out then (Suppressed, w)
  else if first_n >? 0 then
    match first_n_step a first_n (default ∅ (counters w !! counter c)) with
    | inl e => (Raised e, w)
    | inr (go, d) =>
        let w := set_counters (<[counter c := d]> (counters w)) w in
        if go then (Forwarded (wrapped c) a, w) else (Suppressed, w)
    end
  else (Forwarded (wrapped c) a, w).

(** The module body binds one closure per name, in this order. *)
Record Wrappers := {
  debug : Closure;
  info : Closure;
  warning : Closure;
  warn : Closure;
  error : Closure;
  exception : Closure;
  fatal : Closure;
  log : Closure;
  DEBUG : Closure;
  INFO : Closure;
  WARNING : Closure;
  WARN : Closure;
  ERROR : Closure;
  FATAL : Closure;
}.

Definition module_wrappers (w : World) : Wrappers * World :=
  let '(c_debug, w) := log_wrapper "debug" w in
  let '(c_info, w) := log_wrapper "info" w in
  let '(c_warning, w) := log_wrapper "warning" w in
  let '(c_warn, w) := log_wrapper "warning" w in
  let '(c_error, w) := log_wrapper "error" w in
  let '(c_exception, w) := log_wrapper "exception" w in
  let '(c_fatal, w) := log_wrapper "fatal" w in
  let '(c_log, w) := log_wrapper "log" w in
  let '(c_DEBUG, w) := log_wrapper "DEBUG" w in
  let '(c_INFO, w) := log_wrapper "INFO" w in
  let '(c_WARNING, w) := log_wrapper "WARNING" w in
  let '(c_WARN, w) := log_wrapper "WARN" w in
  let '(c_ERROR, w) := log_wrapper "ERROR" w in
  let '(c_FATAL, w) := log_wrapper "FATAL" w in
  ({| debug := c_debug; info := c_info; warning := c_warning;
      warn := c_warn; error := c_error; exception := c_exception;
      fatal := c_fatal; log := c_log; DEBUG := c_DEBUG; INFO := c_INFO;
      WARNING := c_WARNING; WARN := c_WARN; ERROR := c_ERROR;
      FATAL := c_FATAL |}, w).

(** The same call made [n] times in a row; the outcomes in order. *)
Fixpoint repeat_log `{Platform} (n : nat) (c : Closure) (a : list PyVal)
    (kwargs : Kwargs) (w : World) : list Outcome * World :=
  match n with
  | O => ([], w)
  | S n =>
      let '(o, w) := conditional_log c a kwargs w in
      let '(os, w) := repeat_log n c a kwargs w in
      (o :: os, w)
  end.

Definition is_forwarded (o : Outcome) : bool :=
  match o with Forwarded _ _ => true | _ => false end.

Definition is_suppressed (o : Outcome) : bool :=
  match o with Suppressed => true | _ => false end.

(** The counter a closure holds for a message text (0 when absent). *)
Definition counter_value `{Platform} (c : Closure) (s : string) (w : World) : Z :=
  default 0 (default ∅ (counters w !! counter c) !! md5_hexdigest s).

(** ** The formatter *)

(** A frame of the call stack as [traceback] and [inspect] report it:
    file, line being executed, function, text of that line. *)
Record FrameSummary := {
  filename : string;
  f_lineno : Z;
  f_name : string;
  line : string;
}.

(** [format_message(record)]: only [TypeError] is caught. *)
Definition format_message `{Platform} (record : LogRecord) : res string :=
  match str_mod (msg record) (args record) with
  | Ret s => Ret s
  | Raise TypeError => Ret (msg record)
  | Raise e => Raise e
  end.

Definition logging_FATAL : Z := 50.
Definition logging_CRITICAL : Z := 50.
Definition logging_ERROR : Z := 40.
Definition logging_WARN : Z := 30.
Definition logging_WARNING : Z := 30.
Definition logging_INFO : Z := 20.
Definition logging_DEBUG : Z := 10.

Definition LEVEL_MAP : gmap Z string :=
  <[logging_FATAL := "F"]> (<[logging_ERROR := "E"]> (<[logging_WARN := "W"]>
    (<[logging_INFO := "I"]> (<[logging_DEBUG := "D"]> ∅)))).

Fixpoint zeros (n : nat) : string :=
  match n with
  | O => ""
  | S n => String "0"%char (zeros n)
  end.

(** The conversion [%0<width>d] of an integer: the sign, then zeros up to
    the width, then the decimal digits. *)
Definition fmt_0d (width : nat) (n : Z) : string :=
  let digits := pretty (Z.abs n) in
  let sign := if n <? 0 then "-" else "" in
  sign ++ zeros (width - String.length sign - String.length digits) ++ digits.

(** [inspect.stack()]: the frames of the interpreter stack, innermost first.
    The stack itself is kept outermost first, as [traceback] lists it. *)
Definition inspect_stack (stack : list FrameSummary) : list FrameSummary :=
  rev stack.

(** [date_usec = (record.created - int(record.created)) * 1e6], on
    floats. *)
Definition date_usec (created : Q) : Q :=
  float_mul (float_sub created (float_of_int (py_int created))) 1000000.

(** [GlogFormatter.format(record)], called while the interpreter stack is
    [stack].  The base [logging.Formatter.format] returns
    [record.getMessage()] for a record without exception or stack
    information, which are the records [LogRecord] describes. *)
Definition format `{Platform} (stack : list FrameSummary) (record : LogRecord)
    : res string :=
  let level := default "?" (LEVEL_MAP !! levelno record) in
  match last (inspect_stack stack) with
  | None => Raise IndexError
  | Some frame_info =>
      let date := time_localtime (created record) in
      match format_message record with
      | Raise e => Raise e
      | Ret m =>
          Ret (level ++ fmt_0d 2 (tm_mon date) ++ fmt_0d 2 (tm_mday date)
               ++ " " ++ fmt_0d 2 (tm_hour date) ++ ":" ++ fmt_0d 2 (tm_min date)
               ++ ":" ++ fmt_0d 2 (tm_sec date)
               ++ "." ++ fmt_0d 6 (py_int (date_usec (created record)))
               ++ " " ++ match process record with
                         | Some pid => pretty pid
                         | None => "?????"
                         end
               ++ " " ++ filename frame_info ++ ":" ++ pretty (f_lineno frame_info)
               ++ "] " ++ m)
      end
  end.

(** The line layout in the words of the specification. *)
Definition glog_line (letter mm dd hh mi ss us pid file ln message : string)
    : string :=
  letter ++ mm ++ dd ++ " " ++ hh ++ ":" ++ mi ++ ":" ++ ss ++ "." ++ us
  ++ " " ++ pid ++ " " ++ file ++ ":" ++ ln ++ "] " ++ message.

Definition is_digit (c : ascii) : bool :=
  let n := nat_of_ascii c in (48 <=? n)%nat && (n <=? 57)%nat.

Fixpoint all_digits (s : string) : bool :=
  match s with
  | EmptyString => true
  | String c s => is_digit c && all_digits s
  end.

(** A reference implementation of [msg % args] for the conversions [%s],
    [%d] and [%%] without flags.  [args] that is not a tuple counts as one
    argument.  A conversion character outside this fragment is answered
    with [ValueError], which is what Python does for an unsupported one. *)
Fixpoint percent_go (fmt : string) (a : list PyVal) : res string :=
  match fmt with
  | EmptyString =>
      match a with
      | [] => Ret ""
      | _ :: _ => Raise TypeError
      end
  | String "%"%char EmptyString => Raise ValueError
  | String "%"%char (String "%"%char rest) =>
      match percent_go rest a with
      | Ret s => Ret (String "%"%char s)
      | Raise e => Raise e
      end
  | String "%"%char (String c rest) =>
      match a with
      | [] => Raise TypeError
      | v :: a =>
          if Ascii.eqb c "s"%char then
            match percent_go rest a with
            | Ret s => Ret (py_str v ++ s)
            | Raise e => Raise e
            end
          else if Ascii.eqb c "d"%char then
            match v with
            | PyInt n =>
                match percent_go rest a with
                | Ret s => Ret (pretty n ++ s)
                | Raise e => Raise e
                end
            | _ => Raise TypeError
            end
          else Raise ValueError
      end
  | String c rest =>
      match percent_go rest a with
      | Ret s => Ret (String c s)
      | Raise e => Raise e
      end
  end.

Definition percent_sd (fmt : string) (a : PyArgs) : res string :=
  match a with
  | ArgsNone => percent_go fmt [PyNone]
  | ArgsTuple l => percent_go fmt l
  end.

(** ** The check primitives *)

(** Computations on the process state that return or raise. *)
Definition M (A : Type) : Type := World -> res A * World.

Definition ret {A} (a : A) : M A := fun w => (Ret a, w).

Definition raise {A} (e : exn) : M A := fun w => (Raise e, w).

Definition bind {A B} (m : M A) (k : A -> M B) : M B :=
  fun w =>
    match m w with
    | (Ret a, w) => k a w
    | (Raise e, w) => (Raise e, w)
    end.

(** [try: body  except ...: handler], the handler receiving the exception;
    a handler that does not match re-raises it. *)
Definition try_except {A} (body : M A) (handler : exn -> M A) : M A :=
  fun w =>
    match body w with
    | (Ret a, w) => (Ret a, w)
    | (Raise e, w) => handler e w
    end.

Notation "x <- m ;; k" := (bind m (fun x => k))
  (at level 100, m at next level, right associativity).
Notation "m ;;; k" := (bind m (fun _ => k))
  (at level 100, right associativity).

(** [for x in l: body x] *)
Fixpoint for_each {A} (l : list A) (body : A -> M unit) : M unit :=
  match l with
  | [] => ret tt
  | x :: l => body x ;;; for_each l body
  end.

(** [logger.makeRecord(name, level, fn, lno, msg, args, exc_info)]: the
    record takes its creation time from the clock and the process id from
    the platform. *)
Definition makeRecord `{Platform} (nm : string) (level : Z) (fn : string)
    (lno : Z) (m : string) (a : PyArgs) : M LogRecord :=
  fun w =>
    (Ret {| name := nm; levelno := level; pathname := fn; lineno := lno;
            msg := m; args := a; created := time_time w 0%nat;
            process := os_getpid |},
     set_time (fun i => time_time w (S i)) w).

(** [handler.handle(record)]: the record reaches the sink. *)
Definition handle (record : LogRecord) : M unit :=
  fun w => (Ret tt, set_handled (handled w ++ [record])%list w).

Definition tab : string := String "009"%char "".

(** [s.rfind(c)]: the index of the last occurrence, or -1. *)
Fixpoint rfind (c : ascii) (s : string) : Z :=
  match s with
  | EmptyString => -1
  | String a s =>
      let r := rfind c s in
      if r >=? 0 then r + 1
      else if Ascii.eqb a c then 0 else -1
  end.

(** [s[i:]] for [i >= 0] *)
Fixpoint string_from (i : nat) (s : string) : string :=
  match i, s with
  | O, _ => s
  | S i, String _ s => string_from i s
  | S _, EmptyString => ""
  end.

(** [os.path.basename(p)] of [posixpath] *)
Definition basename (p : string) : string :=
  let i := rfind "/"%char p + 1 in
  string_from (Z.to_nat i) p.

(** The line [format_stacktrace] builds for one frame. *)
Definition stacktrace_line (f : FrameSummary) : string :=
  let fname := basename (filename f) in
  tab ++ (fname ++ "::" ++ f_name f) ++ ":" ++ pretty (f_lineno f)
  ++ tab ++ line f.

(** [format_stacktrace(stack)]: the loop appends one line per frame. *)
Definition format_stacktrace (stack : list FrameSummary) : list string :=
  fold_left (fun lines f => (lines ++ [stacktrace_line f])%list) stack [].

(** [traceback.extract_stack()]: the frames of the interpreter stack from
    the outermost down to the frame that calls it. *)
Definition extract_stack (stack : list FrameSummary) : list FrameSummary :=
  stack.

(** The frame a function of [glog.py] has on the stack while it executes
    the line [lno]. *)
Definition glog_frame `{Platform} (fn : string) (lno : Z) (text : string)
    : FrameSummary :=
  {| filename := glog_file; f_lineno := lno; f_name := fn; line := text |}.

(** The first two statements of [check_failed], executed with the frames
    [callers] on the stack (outermost first, the last one the caller of
    [check_failed]): [stack = traceback.extract_stack()] and
    [stack = stack[0:-2]]. *)
Definition trimmed_stack `{Platform} (callers : list FrameSummary)
    : list FrameSummary :=
  let stack :=
    extract_stack
      (callers ++ [glog_frame "check_failed" 224
                     "stack = traceback.extract_stack()"])%list in
  take (length stack - 2) stack.

(** [check_failed(message)], entered with the frames [callers] on the
    stack. *)
Definition check_failed `{Platform} (callers : list FrameSummary)
    (message : string) : M unit :=
  let stack := trimmed_stack callers in
  let stacktrace_lines := format_stacktrace stack in
  match last stack with
  | None => raise IndexError
  | Some site =>
      let filename := filename site in
      let line_num := f_lineno site in
      try_except (raise (FailedCheckException message))
        (fun e =>
           match e with
           | FailedCheckException _ =>
               log_record <- makeRecord "CRITICAL" 50 filename line_num
                               message ArgsNone ;;
               handle log_record ;;;
               log_record <- makeRecord "DEBUG" 10 filename line_num
                               "Check failed here:" ArgsNone ;;
               handle log_record ;;;
               for_each stacktrace_lines (fun ln =>
                 log_record <- makeRecord "DEBUG" 10 filename line_num
                                 ln ArgsNone ;;
                 handle log_record) ;;;
               raise e
           | _ => raise e
           end)
  end.

(** The comparison operators and [str] of the objects handed to a check. *)
Class PyObject (A : Type) := {
  py_eq : A -> A -> bool;
  py_ne : A -> A -> bool;
  py_lt : A -> A -> bool;
  py_le : A -> A -> bool;
  py_gt : A -> A -> bool;
  py_ge : A -> A -> bool;
  obj_str : A -> string;
}.

#[export] Instance PyObject_int : PyObject Z := {
  py_eq := Z.eqb;
  py_ne := fun a b => negb (Z.eqb a b);
  py_lt := Z.ltb;
  py_le := Z.leb;
  py_gt := Z.gtb;
  py_ge := Z.geb;
  obj_str := pretty;
}.

#[export] Instance PyObject_str : PyObject string := {
  py_eq := String.eqb;
  py_ne := fun a b => negb (String.eqb a b);
  py_lt := String.ltb;
  py_le := String.leb;
  py_gt := fun a b => String.ltb b a;
  py_ge := fun a b => String.leb b a;
  obj_str := fun s => s;
}.

Section Checks.
Context `{Platform} {A : Type} `{PyObject A}.

(** Each primitive runs with [callers] on the stack; its own frame sits
    at the line of its call of [check_failed]. *)
Definition check (callers : list FrameSummary) (condition : bool)
    (message : option string) : M unit :=
  if negb condition then
    let message := default "Check failed." message in
    check_failed
      (callers ++ [glog_frame "check" 255 "check_failed(message)"])%list message
  else ret tt.

Definition check_eq (callers : list FrameSummary) (obj1 obj2 : A)
    (message : option string) : M unit :=
  if py_ne obj1 obj2 then
    let message :=
      default ("Check failed: " ++ obj_str obj1 ++ " != " ++ obj_str obj2)
              message in
    check_failed
      (callers ++ [glog_frame "check_eq" 263 "check_failed(message)"])%list message
  else ret tt.

Definition check_ne (callers : list FrameSummary) (obj1 obj2 : A)
    (message : option string) : M unit :=
  if py_eq obj1 obj2 then
    let message :=
      default ("Check failed: " ++ obj_str obj1 ++ " == " ++ obj_str obj2)
              message in
    check_failed
      (callers ++ [glog_frame "check_ne" 271 "check_failed(message)"])%list message
  else ret tt.

Definition check_le (callers : list FrameSummary) (obj1 obj2 : A)
    (message : option string) : M unit :=
  if py_gt obj1 obj2 then
    let message :=
      default ("Check failed: " ++ obj_str obj1 ++ " > " ++ obj_str obj2)
              message in
    check_failed
      (callers ++ [glog_frame "check_le" 279 "check_failed(message)"])%list message
  else ret tt.

Definition check_ge (callers : list FrameSummary) (obj1 obj2 : A)
    (message : option string) : M unit :=
  if py_lt obj1 obj2 then
    let message :=
      default ("Check failed: " ++ obj_str obj1 ++ " < " ++ obj_str obj2)
              message in
    check_failed
      (callers ++ [glog_frame "check_ge" 287 "check_failed(message)"])%list message
  else ret tt.

Definition check_lt (callers : list FrameSummary) (obj1 obj2 : A)
    (message : option string) : M unit :=
  if py_ge obj1 obj2 then
    let message :=
      default ("Check failed: " ++ obj_str obj1 ++ " >= " ++ obj_str obj2)
              message in
    check_failed
      (callers ++ [glog_frame "check_lt" 295 "check_failed(message)"])%list message
  else ret tt.

Definition check_gt (callers : list FrameSummary) (obj1 obj2 : A)
    (message : option string) : M unit :=
  if py_le obj1 obj2 then
    let message :=
      default ("Check failed: " ++ obj_str obj1 ++ " <= " ++ obj_str obj2)
              message in
    check_failed
      (callers ++ [glog_frame "check_gt" 303 "check_failed(message)"])%list message
  else ret tt.

(** [obj] is [None] or an object. *)
Definition check_notnone (callers : list FrameSummary) (obj : option A)
    (message : option string) : M unit :=
  match obj with
  | None =>
      let message := default "Check failed: Object is None." message in
      check_failed
        (callers ++ [glog_frame "check_notnone" 311 "check_failed(message)"])%list
        message
  | Some _ => ret tt
  end.
End Checks.

(** The check primitives as one family, to state what they share. *)
Inductive CheckCall (A : Type) :=
  | Check (condition : bool)
  | CheckEq (obj1 obj2 : A)
  | CheckNe (obj1 obj2 : A)
  | CheckLe (obj1 obj2 : A)
  | CheckGe (obj1 obj2 : A)
  | CheckLt (obj1 obj2 : A)
  | CheckGt (obj1 obj2 : A)
  | CheckNotnone (obj : option A).
Arguments Check {A} condition.
Arguments CheckEq {A} obj1 obj2.
Arguments CheckNe {A} obj1 obj2.
Arguments CheckLe {A} obj1 obj2.
Arguments CheckGe {A} obj1 obj2.
Arguments CheckLt {A} obj1 obj2.
Arguments CheckGt {A} obj1 obj2.
Arguments CheckNotnone {A} obj.

Definition run_check `{Platform} {A} `{PyObject A}
    (callers : list FrameSummary) (c : CheckCall A) (message : option string)
    : M unit :=
  match c with
  | Check b => check callers b message
  | CheckEq a b => check_eq callers a b message
  | CheckNe a b => check_ne callers a b message
  | CheckLe a b => check_le callers a b message
  | CheckGe a b => check_ge callers a b message
  | CheckLt a b => check_lt callers a b message
  | CheckGt a b => check_gt callers a b message
  | CheckNotnone o => check_notnone callers o message
  end.

(** The failure condition of each primitive, in the words of the
    specification. *)
Definition failure_condition {A} `{PyObject A} (c : CheckCall A) : bool :=
  match c with
  | Check b => negb b
  | CheckEq a b => py_ne a b
  | CheckNe a b => py_eq a b
  | CheckLe a b => py_gt a b
  | CheckGe a b => py_lt a b
  | CheckLt a b => py_ge a b
  | CheckGt a b => py_le a b
  | CheckNotnone o => match o with None => true | Some _ => false end
  end.

(** The message of a failure: the one given, or the default. *)
Definition failure_message {A} `{PyObject A} (c : CheckCall A)
    (message : option string) : string :=
  match message with
  | Some m => m
  | None =>
      match c with
      | Check _ => "Check failed."
      | CheckEq a b => "Check failed: " ++ obj_str a ++ " != " ++ obj_str b
      | CheckNe a b => "Check failed: " ++ obj_str a ++ " == " ++ obj_str b
      | CheckLe a b => "Check failed: " ++ obj_str a ++ " > " ++ obj_str b
      | CheckGe a b => "Check failed: " ++ obj_str a ++ " < " ++ obj_str b
      | CheckLt a b => "Check failed: " ++ obj_str a ++ " >= " ++ obj_str b
      | CheckGt a b => "Check failed: " ++ obj_str a ++ " <= " ++ obj_str b
      | CheckNotnone _ => "Check failed: Object is None."
      end
  end.

(** The frame of the primitive while it calls [check_failed]. *)
Definition primitive_frame `{Platform} {A} (c : CheckCall A) : FrameSummary :=
  match c with
  | Check _ => glog_frame "check" 255 "check_failed(message)"
  | CheckEq _ _ => glog_frame "check_eq" 263 "check_failed(message)"
  | CheckNe _ _ => glog_frame "check_ne" 271 "check_failed(message)"
  | CheckLe _ _ => glog_frame "check_le" 279 "check_failed(message)"
  | CheckGe _ _ => glog_frame "check_ge" 287 "check_failed(message)"
  | CheckLt _ _ => glog_frame "check_lt" 295 "check_failed(message)"
  | CheckGt _ _ => glog_frame "check_gt" 303 "check_failed(message)"
  | CheckNotnone _ => glog_frame "check_notnone" 311 "check_failed(message)"
  end.

(** What the sink sees of a record: logger name, severity, file, line and
    message. *)
Definition seen (r : LogRecord) : string * Z * string * Z * string :=
  (name r, levelno r, pathname r, lineno r, msg r).

(** The records of a failure report, in the words of the specification:
    one CRITICAL record with the message, one DEBUG record with the fixed
    text, one DEBUG record per trace line, all at the failure site. *)
Definition failure_report (site : FrameSummary) (message : string)
    (trace : list string) : list (string * Z * string * Z * string) :=
  ("CRITICAL", logging_CRITICAL, filename site, f_lineno site, message)
  :: ("DEBUG", logging_DEBUG, filename site, f_lineno site, "Check failed here:")
  :: map (fun ln => ("DEBUG", logging_DEBUG, filename site, f_lineno site, ln))
       trace.

(** ** A small platform to run the model on examples *)

Definition example_platform : Platform := {|
  md5_hexdigest := fun s => s;
  str_mod := percent_sd;
  time_localtime := fun _ =>
    {| tm_mon := 11; tm_mday := 4; tm_hour := 9; tm_min := 5; tm_sec := 7 |};
  glog_file := "/usr/lib/python3/site-packages/glog.py";
  os_getpid := Some 4242;
|}.

Definition example_world : World := {|
  counters := [];
  random_random := fun _ => 0%Q;
  time_time := fun i => (1700000000 + inject_Z (Z.of_nat i) + (1 # 4))%Q;
  handled := [];
|}.

Definition example_top : FrameSummary := {|
  filename := "/home/user/app/main.py"; f_lineno := 30;
  f_name := "<module>"; line := "run()" |}.

Definition example_site : FrameSummary := {|
  filename := "/home/user/app/main.py"; f_lineno := 12;
  f_name := "run"; line := "glog.check_eq(a, b)" |}.

(** A record created at the double 1700000000.123456. *)
Definition example_record : LogRecord := {|
  name := "root"; levelno := logging_INFO; pathname := "/home/user/app/main.py";
  lineno := 12; msg := "hello %s %s"; args := ArgsTuple [PyStr "world"];
  created := (1782579200129453 # 1048576)%Q; process := None |}.



(** ** Auxiliary definitions for the statements *)

Definition count_forwarded (os : list Outcome) : nat :=
  length (List.filter is_forwarded os).

Definition count_suppressed (os : list Outcome) : nat :=
  length (List.filter is_suppressed os).

(** The closures of the module, in the order they are bound. *)
Definition wrappers_list (ws : Wrappers) : list Closure :=
  [debug ws; info ws; warning ws; warn ws; error ws; exception ws; fatal ws;
   log ws; DEBUG ws; INFO ws; WARNING ws; WARN ws; ERROR ws; FATAL ws].

(** [c in s] *)
Fixpoint string_mem (c : ascii) (s : string) : bool :=
  match s with
  | EmptyString => false
  | String a s => Ascii.eqb a c || string_mem c s
  end.

(** The ranges [time.localtime] documents for the fields of its result. *)
Definition struct_time_valid (d : struct_time) : Prop :=
  1 <= tm_mon d <= 12 /\ 1 <= tm_mday d <= 31 /\ 0 <= tm_hour d <= 23
  /\ 0 <= tm_min d <= 59 /\ 0 <= tm_sec d <= 61.

(** [s] is made of exactly [k] decimal digits. *)
Definition digits_exactly (k : nat) (s : string) : Prop :=
  String.length s = k /\ all_digits s = true.

(** ** The environment-gated accessor *)

(** What [lv] returns: the module itself, or the [noop] object whose every
    attribute is the function [_noop] that does nothing. *)
Inductive LogSurface :=
  | GlogModule
  | NoOpObject.

(** [lv(verbosity)] with [os.environ] given as a dictionary; the comparison
    is the one of [str] objects. *)
Definition lv (environ : gmap string string) (verbosity : Z) : LogSurface :=
  if py_ge (default "0" (environ !! "DEBUG")) (obj_str verbosity)
  then GlogModule else NoOpObject.

(** ** The pattern for line prefixes *)

(** A dictionary keyed by function objects, in insertion order; two
    closures are the same object exactly when they hold the same counter. *)
Fixpoint dict_set {V : Type} (k : Closure) (v : V) (d : list (Closure * V))
    : list (Closure * V) :=
  match d with
  | [] => [(k, v)]
  | (k', v') :: d =>
      if (counter k' =? counter k)%nat then (k', v) :: d
      else (k', v') :: dict_set k v d
  end.

(** The dictionary display [{DEBUG: "DEBUG", INFO: "INFO", ...}]. *)
Definition _level_names (ws : Wrappers) : list (Closure * string) :=
  dict_set (FATAL ws) "FATAL"
    (dict_set (ERROR ws) "ERROR"
       (dict_set (WARN ws) "WARN"
          (dict_set (INFO ws) "INFO"
             (dict_set (DEBUG ws) "DEBUG" [])))).

(** [name[0]] *)
Definition first_char (nm : string) : res string :=
  match nm with
  | EmptyString => Raise IndexError
  | String c _ => Ret (String c "")
  end.

(** [[name[0] for name in names]] *)
Fixpoint first_chars (names : list string) : res (list string) :=
  match names with
  | [] => Ret []
  | nm :: names =>
      match first_char nm with
      | Raise e => Raise e
      | Ret c =>
          match first_chars names with
          | Raise e => Raise e
          | Ret cs => Ret (c :: cs)
          end
      end
  end.

Definition _level_letters (ws : Wrappers) : res (list string) :=
  first_chars (snd <$> _level_names ws).

(** ["".join(l)] *)
Definition join_empty (l : list string) : string :=
  fold_right String.append "" l.

(** How often an element of the pattern is taken: once, [x?], [x+]. *)
Inductive Quant :=
  | One
  | Opt
  | Plus.

(** An element of the pattern: a set of characters with its quantifier. *)
Record Item := {
  cls : ascii -> bool;
  quant : Quant;
}.

(** [x+] followed by what [k] accepts. *)
Fixpoint match_plus (p : ascii -> bool) (k : string -> bool) (s : string)
    : bool :=
  match s with
  | EmptyString => false
  | String c s => p c && (k s || match_plus p k s)
  end.

Definition match_item (it : Item) (k : string -> bool) (s : string) : bool :=
  match quant it with
  | One =>
      match s with
      | EmptyString => false
      | String c s => cls it c && k s
      end
  | Opt =>
      match s with
      | EmptyString => false
      | String c s' => cls it c && k s'
      end || k s
  | Plus => match_plus (cls it) k s
  end.

(** [re.match] of a sequence of elements: some prefix of [s] is matched. *)
Fixpoint match_items (items : list Item) (s : string) : bool :=
  match items with
  | [] => true
  | it :: items => match_item it (match_items items) s
  end.

Definition is_letter (c : ascii) : bool :=
  let n := nat_of_ascii c in
  ((65 <=? n)%nat && (n <=? 90)%nat) || ((97 <=? n)%nat && (n <=? 122)%nat).

(** The classes of the pattern, on ASCII characters. *)
Definition class_d : ascii -> bool := is_digit.
Definition class_s : ascii -> bool := Ascii.is_space.
Definition class_w (c : ascii) : bool :=
  is_letter c || is_digit c || Ascii.eqb c "_"%char.
Definition class_char (x : ascii) : ascii -> bool := fun c => Ascii.eqb c x.
(** [[a-zA-Z<_]] *)
Definition class_file_first (c : ascii) : bool :=
  is_letter c || Ascii.eqb c "<"%char || Ascii.eqb c "_"%char.
(** [[\w._<>-]] *)
Definition class_file_rest (c : ascii) : bool :=
  class_w c || Ascii.eqb c "."%char || Ascii.eqb c "_"%char
  || Ascii.eqb c "<"%char || Ascii.eqb c ">"%char || Ascii.eqb c "-"%char.

Definition one (p : ascii -> bool) : Item := {| cls := p; quant := One |}.
Definition opt (p : ascii -> bool) : Item := {| cls := p; quant := Opt |}.
Definition plus (p : ascii -> bool) : Item := {| cls := p; quant := Plus |}.

(** The pattern text as [re] reads it in verbose mode ([(?x)]: the white
    space of the text is not part of the pattern), with [letters] put in
    the severity class.  The classes are taken on ASCII characters. *)
Definition prefix_pattern (letters : string) : list Item :=
  [ one (fun c => string_mem c letters);                   (* [%s] *)
    one class_d; one class_d;                              (* month \d\d *)
    one class_d; one class_d;                              (* day \d\d *)
    one class_s;                                           (* \s *)
    one class_d; one class_d; one (class_char ":");        (* hour \d\d : *)
    one class_d; one class_d; one (class_char ":");        (* minute \d\d : *)
    one class_d; one class_d;                              (* second \d\d *)
    one (class_char ".");                                  (* \. *)
    one class_d; one class_d; one class_d;
    one class_d; one class_d; one class_d;                 (* \d{6} *)
    plus class_s;                                          (* \s+ *)
    opt (class_char "-"); plus class_d;                    (* -?\d+ *)
    one class_s;                                           (* \s *)
    one class_file_first; plus class_file_rest;            (* filename *)
    one (class_char ":");                                  (* : *)
    plus class_d;                                          (* line \d+ *)
    one (class_char "]");                                  (* \] *)
    one class_s ].                                         (* \s *)

(** [GLOG_PREFIX_REGEX], built from the letters of the level names. *)
Definition GLOG_PREFIX_REGEX (ws : Wrappers) : res (list Item) :=
  match _level_letters ws with
  | Raise e => Raise e
  | Ret letters => Ret (prefix_pattern (join_empty letters))
  end.

(** [re.match(GLOG_PREFIX_REGEX, text) is not None], for an interpreter
    that accepts the flag [(?x)] after the leading white space of the
    pattern text (later ones refuse to compile such a pattern). *)
Definition re_match_prefix (ws : Wrappers) (text : string) : res bool :=
  match GLOG_PREFIX_REGEX ws with
  | Raise e => Raise e
  | Ret items => Ret (match_items items text)
  end.

(** Whether a result is an exception. *)
Definition raised {A : Type} (r : res A) : bool :=
  match r with
  | Ret _ => false
  | Raise _ => true
  end.

(** Every character of [s] is in the class [p]. *)
Fixpoint string_forall (p : ascii -> bool) (s : string) : bool :=
  match s with
  | EmptyString => true
  | String c s => p c && string_forall p s
  end.

(** ** Strings *)

Lemma string_app_cons (a : ascii) (s t : string) :
  String a s ++ t = String a (s ++ t).
Proof. reflexivity. Qed.

Lemma string_app_assoc (s t u : string) : (s ++ t) ++ u = s ++ t ++ u.
Proof.
  induction s as [|a s IH]; [done|].
  by rewrite !string_app_cons, IH.
Qed.

Lemma string_app_length (s t : string) :
  String.length (s ++ t) = (String.length s + String.length t)%nat.
Proof.
  induction s as [|a s IH]; [done|].
  rewrite string_app_cons. simpl. by rewrite IH.
Qed.

(** ** Facts about the filter *)

Lemma set_counters_id (w : World) : set_counters (counters w) w = w.
Proof. by destruct w. Qed.

Lemma Qltb_true (a b : Q) : Qltb a b = true <-> (a < b)%Q.
Proof.
  unfold Qltb. rewrite negb_true_iff, <- not_true_iff_false, Qle_bool_iff.
  split; [apply Qnot_le_lt | apply Qlt_not_le].
Qed.

Lemma Qltb_false (a b : Q) : Qltb a b = false <-> (b <= a)%Q.
Proof. unfold Qltb. by rewrite negb_false_iff, Qle_bool_iff. Qed.

(** ** Facts about doubles *)

Lemma pow2_pos (k : Z) : (0 < 2 ^ k)%Q.
Proof. by apply Qpower_0_lt. Qed.

Lemma pow2_add (a b : Z) : (2 ^ (a + b) == 2 ^ a * 2 ^ b)%Q.
Proof. apply Qpower_plus. discriminate. Qed.

Lemma pow2_le (a b : Z) : a <= b -> (2 ^ a <= 2 ^ b)%Q.
Proof. intros Hab. apply Qpower_le_compat_l; [exact Hab|discriminate]. Qed.

Lemma pow2_lt_inv (a b : Z) : (2 ^ a < 2 ^ b)%Q -> a < b.
Proof. intros Hab. by apply (Qpower_lt_compat_l_inv 2). Qed.

Lemma pow2_Z (k : Z) : 0 <= k -> (inject_Z (2 ^ k) == 2 ^ k)%Q.
Proof. intros Hk. by rewrite Zpower_Qpower. Qed.

Lemma pow2_max (k : Z) :
  (2 ^ Z.max k 0 == 2 ^ k * 2 ^ Z.max (- k) 0)%Q.
Proof.
  destruct (Z.le_gt_cases 0 k) as [Hk|Hk].
  - rewrite (Z.max_l k 0), (Z.max_r (- k) 0) by lia.
    change (2 ^ 0)%Q with 1%Q. lra.
  - rewrite (Z.max_r k 0), (Z.max_l (- k) 0) by lia.
    rewrite <- pow2_add. by replace (k + - k) with 0 by lia.
Qed.

Lemma shift_up_Q (n k : Z) :
  (inject_Z (shift_up n k) == inject_Z n * 2 ^ Z.max k 0)%Q.
Proof.
  unfold shift_up. rewrite inject_Z_mult, pow2_Z by lia. reflexivity.
Qed.

Lemma shift_up_pos (n k : Z) : 0 < n -> 0 < shift_up n k.
Proof.
  intros Hn. unfold shift_up.
  assert (0 < 2 ^ Z.max k 0) by (apply Z.pow_pos_nonneg; lia). nia.
Qed.

Lemma Qmake_pos (p q : positive) :
  (Z.pos p # q == inject_Z (Z.pos p) / inject_Z (Z.pos q))%Q.
Proof. apply Qmake_Qdiv. Qed.

Lemma inject_Z_sub (a b : Z) :
  (inject_Z (a - b) == inject_Z a - inject_Z b)%Q.
Proof.
  unfold Z.sub, Qminus. by rewrite inject_Z_plus, inject_Z_opp.
Qed.

Lemma Qdiv_cancel_r (n a b : Q) :
  (0 < a)%Q -> (n * (b * a) / (1 * a) == n * b)%Q.
Proof. intros Ha. field. lra. Qed.

Lemma Qdiv_cross (u v a b : Q) :
  ~ (v == 0)%Q -> (u * (b * a) == u / v * b * (v * a))%Q.
Proof. intros Hv. by field. Qed.

Lemma Qdiv_by (a d k : Q) :
  (0 < d)%Q -> (d * k == 1)%Q -> (a * k == a / d)%Q.
Proof.
  intros Hd Hdk. rewrite <- (Qmult_1_r (a / d)), <- Hdk. field. lra.
Qed.

(** The exponent is the one of the number. *)
Lemma float_exponent_spec (p q : positive) :
  let e := float_exponent p q in
  (2 ^ e <= Z.pos p # q < 2 ^ (e + 1))%Q.
Proof.
  cbn zeta. unfold float_exponent.
  set (a := Z.log2 (Z.pos p)). set (b := Z.log2 (Z.pos q)).
  set (x := (Z.pos p # q)%Q).
  assert (inject_Z (Z.pos p) == x * inject_Z (Z.pos q))%Q as Hx.
  { unfold x. rewrite (Qmake_pos p q). field. discriminate. }
  assert (0 < inject_Z (Z.pos q))%Q as Hq0 by reflexivity.
  assert (0 <= a) as Ha0 by apply Z.log2_nonneg.
  assert (0 <= b) as Hb0 by apply Z.log2_nonneg.
  destruct (Z.log2_spec (Z.pos p) ltac:(lia)) as [Hp1 Hp2].
  destruct (Z.log2_spec (Z.pos q) ltac:(lia)) as [Hq1 Hq2].
  fold a in Hp1, Hp2. fold b in Hq1, Hq2.
  rewrite Zle_Qle, pow2_Z in Hp1, Hq1 by lia.
  rewrite Zlt_Qlt, pow2_Z in Hp2, Hq2 by lia.
  pose proof (pow2_pos (a - b - 1)) as He1.
  pose proof (pow2_pos (a - b)) as He0.
  pose proof (pow2_pos (a - b + 1)) as He2.
  pose proof (pow2_pos b) as Hb.
  assert (2 ^ Z.succ a == 2 ^ (a - b + 1) * 2 ^ b)%Q as Hs1.
  { rewrite <- pow2_add. by replace (a - b + 1 + b) with (Z.succ a) by lia. }
  assert (2 ^ a == 2 ^ (a - b - 1) * 2 ^ Z.succ b)%Q as Hs2.
  { rewrite <- pow2_add. by replace (a - b - 1 + Z.succ b) with a by lia. }
  assert (2 ^ (a - b) == 2 * 2 ^ (a - b - 1))%Q as Hs3.
  { change 2%Q with (2 ^ 1)%Q at 2. rewrite <- pow2_add.
    by replace (1 + (a - b - 1)) with (a - b) by lia. }
  assert (2 ^ (a - b + 1) == 2 * 2 ^ (a - b))%Q as Hs4.
  { change 2%Q with (2 ^ 1)%Q at 2. rewrite <- pow2_add.
    by replace (1 + (a - b)) with (a - b + 1) by lia. }
  assert (x < 2 ^ (a - b + 1))%Q as Hhi.
  { apply (Qmult_lt_r _ _ (inject_Z (Z.pos q)) Hq0). rewrite <- Hx.
    eapply Qlt_le_trans; [exact Hp2|]. rewrite Hs1.
    apply Qmult_le_l; [exact He2|exact Hq1]. }
  assert (2 ^ (a - b - 1) < x)%Q as Hlo.
  { apply (Qmult_lt_r _ _ (inject_Z (Z.pos q)) Hq0). rewrite <- Hx.
    eapply Qlt_le_trans; [|exact Hp1]. rewrite Hs2.
    apply Qmult_lt_l; [exact He1|exact Hq2]. }
  pose proof (pow2_max (a - b)) as Hm.
  pose proof (pow2_pos (Z.max (- (a - b)) 0)) as Hm0.
  destruct (_ <? _) eqn:Ht.
  - apply Z.ltb_lt in Ht. rewrite Zlt_Qlt, !shift_up_Q, Hm, Hx in Ht.
    replace (a - b - 1 + 1) with (a - b) by lia.
    split; [lra|].
    apply (Qmult_lt_r _ _ _ Hm0). apply (Qmult_lt_r _ _ _ Hq0).
    lra.
  - apply Z.ltb_ge in Ht. rewrite Zle_Qle, !shift_up_Q, Hm, Hx in Ht.
    split; [|exact Hhi].
    apply (Qmult_le_r _ _ _ Hm0). apply (Qmult_le_r _ _ _ Hq0).
    lra.
Qed.

(** The nearest integer is within a half. *)
Lemma round_half_even_spec (num den : Z) :
  0 < den ->
  let n := round_half_even num den in
  2 * Z.abs (n * den - num) <= den.
Proof.
  intros Hden. cbn zeta. unfold round_half_even.
  pose proof (Z.div_mod num den ltac:(lia)) as Hdm.
  pose proof (Z.mod_pos_bound num den Hden) as Hr.
  destruct (2 * (num mod den) <? den) eqn:H1;
    [|destruct (den <? 2 * (num mod den)) eqn:H2;
      [|destruct (Z.even (num / den))]]; nia.
Qed.

Section RoundPos.
Variables p q : positive.
Let e := float_exponent p q.
Let x : Q := (Z.pos p # q)%Q.
Let num := shift_up (Z.pos p) (52 - e).
Let den := shift_up (Z.pos q) (e - 52).
Let n := round_half_even num den.

Lemma round_double_pos_value :
  (round_double_pos p q == inject_Z n * 2 ^ (e - 52))%Q.
Proof.
  unfold round_double_pos. fold e num den n.
  pose proof (shift_up_pos 1 (52 - e) ltac:(lia)) as Hd.
  rewrite (Qmake_Qdiv (shift_up n (e - 52))), Z2Pos.id, !shift_up_Q
    by exact Hd.
  pose proof (pow2_max (e - 52)) as Hm.
  replace (- (e - 52)) with (52 - e) in Hm by lia.
  pose proof (pow2_pos (Z.max (52 - e) 0)) as Hm0.
  rewrite Hm. set (A := (2 ^ Z.max (52 - e) 0)%Q) in *.
  change (inject_Z 1) with 1%Q. by apply Qdiv_cancel_r.
Qed.

Lemma scaled_value :
  (inject_Z num == x * 2 ^ (52 - e) * inject_Z den)%Q.
Proof.
  unfold num, den, x. rewrite !shift_up_Q, (Qmake_pos p q).
  pose proof (pow2_max (52 - e)) as Hm.
  replace (- (52 - e)) with (e - 52) in Hm by lia.
  rewrite Hm. set (A := (2 ^ Z.max (e - 52) 0)%Q) in *.
  apply Qdiv_cross. discriminate.
Qed.

Lemma den_pos : (0 < inject_Z den)%Q.
Proof.
  change 0%Q with (inject_Z 0). rewrite <- Zlt_Qlt.
  by apply shift_up_pos.
Qed.

(** The significand is within a half of the scaled number. *)
Lemma significand_near :
  (x * 2 ^ (52 - e) - (1 # 2) <= inject_Z n
   <= x * 2 ^ (52 - e) + (1 # 2))%Q.
Proof.
  pose proof (round_half_even_spec num den) as Hn.
  fold n in Hn. cbn zeta in Hn.
  pose proof den_pos as Hd.
  assert (0 < den) as HdZ.
  { rewrite Zlt_Qlt. exact Hd. }
  specialize (Hn HdZ).
  assert (2 * (n * den - num) <= den /\ 2 * (num - n * den) <= den)
    as [H1 H2] by lia.
  rewrite Zle_Qle in H1, H2.
  rewrite inject_Z_mult, inject_Z_sub, inject_Z_mult in H1.
  rewrite inject_Z_mult, inject_Z_sub, inject_Z_mult in H2.
  rewrite scaled_value in H1, H2.
  change (inject_Z 2) with 2%Q in H1, H2.
  set (y := (x * 2 ^ (52 - e))%Q) in *.
  set (D := inject_Z den) in *. set (N := inject_Z n) in *.
  split.
  - apply (Qmult_le_r _ _ D Hd). lra.
  - apply (Qmult_le_r _ _ D Hd). lra.
Qed.

(** The rounded number is within half a unit of the last place. *)
Lemma round_double_pos_near :
  (x - 2 ^ (e - 53) <= round_double_pos p q <= x + 2 ^ (e - 53))%Q.
Proof.
  rewrite round_double_pos_value.
  pose proof significand_near as [H1 H2].
  pose proof (pow2_pos (e - 52)) as Hp.
  assert (2 ^ (e - 52) == 2 * 2 ^ (e - 53))%Q as Hs.
  { change 2%Q with (2 ^ 1)%Q at 2. rewrite <- pow2_add.
    by replace (1 + (e - 53)) with (e - 52) by lia. }
  assert (2 ^ (52 - e) * 2 ^ (e - 52) == 1)%Q as Hi.
  { rewrite <- pow2_add. by replace (52 - e + (e - 52)) with 0 by lia. }
  set (N := inject_Z n) in *. set (A := (2 ^ (52 - e))%Q) in *.
  set (B := (2 ^ (e - 52))%Q) in *. set (C := (2 ^ (e - 53))%Q) in *.
  assert (x == x * A * B)%Q as Hx by (rewrite <- Qmult_assoc, Hi; lra).
  split.
  - assert ((x * A - (1 # 2)) * B <= N * B)%Q as H
      by (apply Qmult_le_compat_r; lra).
    lra.
  - assert (N * B <= (x * A + (1 # 2)) * B)%Q as H
      by (apply Qmult_le_compat_r; lra).
    lra.
Qed.

Lemma round_double_pos_gt0 : (0 < round_double_pos p q)%Q.
Proof.
  pose proof round_double_pos_near as [H1 _].
  pose proof (float_exponent_spec p q) as [H2 _]. fold e x in H2.
  pose proof (pow2_pos (e - 53)) as Hp.
  assert (2 ^ e == 2 ^ 53 * 2 ^ (e - 53))%Q as Hs.
  { rewrite <- pow2_add. by replace (53 + (e - 53)) with e by lia. }
  assert (2 ^ 53 == 9007199254740992)%Q as Hc by reflexivity.
  rewrite Hc in Hs. lra.
Qed.

(** A number with a significand of at most 53 bits is a double. *)
Lemma round_double_pos_exact (m k : Z) :
  0 < m < 2 ^ 53 ->
  (x == inject_Z m * 2 ^ k)%Q ->
  (round_double_pos p q == x)%Q.
Proof.
  intros Hm Hx.
  pose proof (float_exponent_spec p q) as [He _]. fold e x in He.
  pose proof (pow2_pos k) as Hk.
  assert (e < 53 + k) as Hek.
  { apply pow2_lt_inv. eapply Qle_lt_trans; [exact He|].
    rewrite Hx, pow2_add.
    assert (2 ^ 53 == 9007199254740992)%Q as -> by reflexivity.
    assert (inject_Z m < 9007199254740992)%Q as Hm2.
    { change 9007199254740992%Q with (inject_Z (2 ^ 53)).
      rewrite <- Zlt_Qlt. lia. }
    apply Qmult_lt_compat_r; [exact Hk|exact Hm2]. }
  set (j := k + 52 - e).
  assert (0 <= j) as Hj by (unfold j; lia).
  assert (x * 2 ^ (52 - e) == inject_Z (m * 2 ^ j))%Q as Hy.
  { rewrite inject_Z_mult, pow2_Z, Hx, <- Qmult_assoc, <- pow2_add by exact Hj.
    by replace (k + (52 - e)) with j by (unfold j; lia). }
  pose proof significand_near as [H1 H2]. rewrite Hy in H1, H2.
  assert (n = m * 2 ^ j) as Hn.
  { assert (inject_Z (m * 2 ^ j) - 1 < inject_Z n
            < inject_Z (m * 2 ^ j) + 1)%Q as [H3 H4] by lra.
    change 1%Q with (inject_Z 1) in H3, H4.
    rewrite <- inject_Z_sub, <- Zlt_Qlt in H3.
    rewrite <- inject_Z_plus, <- Zlt_Qlt in H4. lia. }
  rewrite round_double_pos_value, Hn, <- Hy, <- Qmult_assoc, <- pow2_add.
  replace (52 - e + (e - 52)) with 0 by lia.
  change (2 ^ 0)%Q with 1%Q. lra.
Qed.

(** A double has a significand of 53 bits. *)
Lemma round_double_pos_significand :
  (round_double_pos p q == x)%Q ->
  2 ^ 52 <= n < 2 ^ 53 /\ (x == inject_Z n * 2 ^ (e - 52))%Q.
Proof.
  intros Hd. rewrite round_double_pos_value in Hd.
  pose proof (float_exponent_spec p q) as [He1 He2]. fold e x in He1, He2.
  pose proof (pow2_pos (e - 52)) as Hp.
  assert (2 ^ e == 2 ^ 52 * 2 ^ (e - 52))%Q as Hs1.
  { rewrite <- pow2_add. by replace (52 + (e - 52)) with e by lia. }
  assert (2 ^ (e + 1) == 2 ^ 53 * 2 ^ (e - 52))%Q as Hs2.
  { rewrite <- pow2_add. by replace (53 + (e - 52)) with (e + 1) by lia. }
  rewrite <- Hd, Hs1 in He1. rewrite <- Hd, Hs2 in He2.
  apply Qmult_le_r in He1; [|exact Hp].
  apply Qmult_lt_r in He2; [|exact Hp].
  split; [|by symmetry].
  split; [rewrite Zle_Qle|rewrite Zlt_Qlt]; assumption.
Qed.

End RoundPos.

Lemma round_double_0 (x : Q) : (x == 0)%Q -> round_double x = 0%Q.
Proof.
  unfold Qeq; simpl. intros Hx. unfold round_double.
  by replace (Qnum x) with 0 by lia.
Qed.

Lemma Qnum_pos (x : Q) :
  (0 < x)%Q -> exists p, x = (Z.pos p # Qden x)%Q.
Proof.
  destruct x as [[|p|p] d]; unfold Qlt; simpl; intros Hx; try lia.
  by exists p.
Qed.

(** Rounding keeps the sign. *)
Lemma round_double_sign (x : Q) : (0 < round_double x)%Q <-> (0 < x)%Q.
Proof.
  destruct x as [[|p|p] d]; unfold round_double; simpl.
  - done.
  - split; [done|]. intros _. apply round_double_pos_gt0.
  - pose proof (round_double_pos_gt0 p d) as Hp.
    split; [lra|]. intros Hx. by contradict Hx.
Qed.

Lemma round_double_nonneg (x : Q) : (0 <= x)%Q -> (0 <= round_double x)%Q.
Proof.
  intros Hx. destruct (Qlt_le_dec 0 x) as [Hp|Hn].
  - apply Qlt_le_weak. by apply round_double_sign.
  - rewrite (round_double_0 x); [done|lra].
Qed.

Lemma round_double_nonpos (x : Q) : (x <= 0)%Q -> (round_double x <= 0)%Q.
Proof.
  intros Hx. apply Qnot_lt_le. rewrite round_double_sign. lra.
Qed.

(** A number with a significand of at most 53 bits is a double. *)
Lemma round_double_exact (x : Q) (m k : Z) :
  0 < m < 2 ^ 53 ->
  (x == inject_Z m * 2 ^ k)%Q ->
  (round_double x == x)%Q.
Proof.
  intros Hm Hx.
  assert (0 < x)%Q as Hpos.
  { rewrite Hx. apply Qmult_lt_0_compat; [|apply pow2_pos].
    change 0%Q with (inject_Z 0). rewrite <- Zlt_Qlt. lia. }
  destruct (Qnum_pos x Hpos) as [p Hp]. rewrite Hp in Hx |- *.
  unfold round_double; simpl. by apply (round_double_pos_exact _ _ m k).
Qed.

Lemma round_double_Z (z : Z) :
  0 <= z < 2 ^ 53 -> (round_double (inject_Z z) == inject_Z z)%Q.
Proof.
  intros Hz. destruct (decide (z = 0)) as [->|Hz0]; [done|].
  apply (round_double_exact _ z 0); [lia|].
  change (2 ^ 0)%Q with 1%Q. lra.
Qed.

(** Rounding adds at most half a unit of the last place. *)
Lemma round_double_upper (x : Q) :
  (0 < x)%Q ->
  exists e, (2 ^ e <= x)%Q /\ (round_double x <= x + 2 ^ (e - 53))%Q.
Proof.
  intros Hpos. destruct (Qnum_pos x Hpos) as [p Hp]. rewrite Hp.
  unfold round_double; simpl. exists (float_exponent p (Qden x)). split.
  - apply float_exponent_spec.
  - apply round_double_pos_near.
Qed.

(** A positive double has a significand of 53 bits. *)
Lemma is_double_significand (x : Q) :
  (0 < x)%Q -> is_double x ->
  exists m k, 2 ^ 52 <= m < 2 ^ 53 /\ (x == inject_Z m * 2 ^ k)%Q.
Proof.
  intros Hpos. destruct (Qnum_pos x Hpos) as [p Hp]. rewrite Hp.
  unfold is_double, round_double; simpl. intros Hd.
  destruct (round_double_pos_significand p (Qden x) Hd) as [Hn Hx].
  eauto.
Qed.

(** The sign of [r * 100] on floats is the sign of [r]. *)
Lemma float_mul_100_sign (r : Q) :
  (0 < float_mul r 100 <-> 0 < r)%Q.
Proof. unfold float_mul. rewrite round_double_sign. split; intros; lra. Qed.

Section Filter.
Context `{Platform}.

(** A call that passes no [sampling] and a positive [first_n], on a
    closure whose dictionary is [d]. *)
Lemma conditional_log_first_n (c : Closure) (s : string) (rest : list PyVal)
    (k : Z) (w : World) (d : gmap string Z) :
  0 < k ->
  counters w !! counter c = Some d ->
  conditional_log c (PyStr s :: rest)
    {| kw_sampling := None; kw_first_n := Some k |} w =
  if default 0 (d !! md5_hexdigest s) >? k then (Suppressed, w)
  else (Forwarded (wrapped c) (PyStr s :: rest),
        set_counters
          (<[counter c := <[md5_hexdigest s :=
               default 0 (d !! md5_hexdigest s) + 1]> d]> (counters w)) w).
Proof.
  intros Hk Hd. unfold conditional_log; simpl.
  assert ((k >? 0) = true) as -> by lia.
  rewrite Hd; simpl. unfold first_n_step, defaultdict_get; simpl.
  destruct (d !! md5_hexdigest s) as [v|] eqn:Hv; simpl.
  - destruct (v >? k); [|done].
    by rewrite list_insert_id, set_counters_id.
  - assert ((0 >? k) = false) as -> by lia.
    by rewrite insert_insert_eq.
Qed.

Lemma counter_value_step (c : Closure) (s : string) (d : gmap string Z)
    (v : Z) (w : World) :
  counters w !! counter c = Some d ->
  counter_value c s
    (set_counters (<[counter c := <[md5_hexdigest s := v]> d]> (counters w)) w)
  = v.
Proof.
  intros Hd. unfold counter_value; simpl.
  rewrite list_lookup_insert_eq by (by eapply lookup_lt_Some).
  simpl. by rewrite lookup_insert_eq.
Qed.

(** Repeating the call: it is forwarded until the counter has passed
    [first_n], then suppressed. *)
Lemma repeat_log_first_n (c : Closure) (s : string) (rest : list PyVal)
    (k : Z) (n : nat) (w : World) :
  0 < k ->
  is_Some (counters w !! counter c) ->
  let v := counter_value c s w in
  let m := Nat.min n (Z.to_nat (k + 1 - v)) in
  fst (repeat_log n c (PyStr s :: rest)
         {| kw_sampling := None; kw_first_n := Some k |} w)
  = (replicate m (Forwarded (wrapped c) (PyStr s :: rest))
     ++ replicate (n - m) Suppressed)%list.
Proof.
  intros Hk. revert w. induction n as [|n IH]; intros w [d Hd]; [done|].
  cbn [repeat_log].
  rewrite (conditional_log_first_n c s rest k w d Hk Hd).
  assert (counter_value c s w = default 0 (d !! md5_hexdigest s)) as Hv.
  { unfold counter_value. by rewrite Hd. }
  destruct (default 0 (d !! md5_hexdigest s) >? k) eqn:Hcmp.
  - specialize (IH w (ex_intro _ d Hd)). cbn zeta in IH.
    destruct (repeat_log n c _ _ w) as [os w'] eqn:Hr. simpl in *.
    rewrite IH, Hv.
    replace (Z.to_nat (k + 1 - default 0 (d !! md5_hexdigest s))) with 0%nat by lia.
    rewrite !Nat.min_0_r. simpl. by rewrite Nat.sub_0_r.
  - set (w1 := set_counters _ w).
    assert (is_Some (counters w1 !! counter c)) as Hs.
    { unfold w1; simpl. apply lookup_lt_is_Some. rewrite length_insert.
      by eapply lookup_lt_Some. }
    specialize (IH w1 Hs). cbn zeta in IH.
    destruct (repeat_log n c _ _ w1) as [os w'] eqn:Hr. simpl in *.
    rewrite IH. unfold w1. rewrite (counter_value_step c s d _ w Hd), Hv.
    set (v := default 0 (d !! md5_hexdigest s)) in *.
    assert (v <= k) by lia.
    replace (Z.to_nat (k + 1 - v)) with (S (Z.to_nat (k + 1 - (v + 1)))) by lia.
    done.
Qed.

(** A closure just made by [log_wrapper] has an empty dictionary. *)
Lemma log_wrapper_fresh (nm : string) (w0 : World) :
  let '(c, w) := log_wrapper nm w0 in
  counters w !! counter c = Some ∅ /\ wrapped c = nm.
Proof.
  simpl. split; [|done].
  rewrite lookup_app_r by done. by rewrite Nat.sub_diag.
Qed.
End Filter.

Lemma count_forwarded_replicate (m j : nat) (nm : string) (a : list PyVal) :
  count_forwarded (replicate m (Forwarded nm a) ++ replicate j Suppressed) = m.
Proof.
  unfold count_forwarded. induction m as [|m IH]; simpl; [|by rewrite IH].
  induction j as [|j IHj]; simpl; done.
Qed.

Lemma count_suppressed_replicate (m j : nat) (nm : string) (a : list PyVal) :
  count_suppressed (replicate m (Forwarded nm a) ++ replicate j Suppressed) = j.
Proof.
  unfold count_suppressed. induction m as [|m IH]; simpl; [|done].
  induction j as [|j IHj]; simpl; [done|by rewrite IHj].
Qed.

(** C6 (amended).  A wrapper called [n] times in a row with the same
    message text and [first_n = k > 0] (no [sampling]) forwards the first
    [k + 1] calls to the logging function and suppresses every later one:
    the call is made while the counter of the text is at most [first_n].
    With [first_n = 2] and 5 calls, 3 are emitted and 2 are suppressed. *)
Theorem first_n_emits_first_n_plus_one `{Platform} (nm s : string)
    (rest : list PyVal) (k : Z) (n : nat) (w0 : World) :
  0 < k ->
  let '(c, w) := log_wrapper nm w0 in
  let outs :=
    fst (repeat_log n c (PyStr s :: rest)
           {| kw_sampling := None; kw_first_n := Some k |} w) in
  let emitted := Nat.min n (Z.to_nat (k + 1)) in
  outs = (replicate emitted (Forwarded nm (PyStr s :: rest))
          ++ replicate (n - emitted) Suppressed)%list
  /\ count_forwarded outs = emitted
  /\ count_suppressed outs = (n - emitted)%nat.
Proof.
  intros Hk.
  pose proof (log_wrapper_fresh nm w0) as Hfresh.
  destruct (log_wrapper nm w0) as [c w]. destruct Hfresh as [Hd Hnm].
  pose proof (repeat_log_first_n c s rest k n w Hk (ex_intro _ ∅ Hd)) as Hrun.
  cbn zeta in Hrun.
  assert (counter_value c s w = 0) as Hv.
  { unfold counter_value. by rewrite Hd. }
  rewrite Hv, Z.sub_0_r, Hnm in Hrun. cbn zeta. rewrite Hrun.
  split; [done|].
  by rewrite count_forwarded_replicate, count_suppressed_replicate.
Qed.

Lemma first_n_emits_first_n_plus_one_witness :
  let '(c, w) := log_wrapper "debug" example_world in
  let outs :=
    fst (@repeat_log example_platform 5 c [PyStr "same text"]
           {| kw_sampling := None; kw_first_n := Some 2 |} w) in
  count_forwarded outs = 3%nat /\ count_suppressed outs = 2%nat.
Proof.
  pose proof (@first_n_emits_first_n_plus_one example_platform
                "debug" "same text" [] 2 5 example_world ltac:(lia)) as Hw.
  destruct (log_wrapper "debug" example_world) as [c w].
  destruct Hw as (_ & Hf & Hs). split; [exact Hf | exact Hs].
Defined.

(** C6 as stated fails: with [first_n = 2], of 5 calls with the same text
    2 are suppressed, not 3. *)
Lemma first_n_2_five_calls_not_three_suppressed :
  let '(c, w) := log_wrapper "debug" example_world in
  count_suppressed
    (fst (@repeat_log example_platform 5 c [PyStr "same text"]
            {| kw_sampling := None; kw_first_n := Some 2 |} w)) <> 3%nat.
Proof. vm_compute. discriminate. Qed.

(** C7 (amended).  A call with [sampling = 0] is suppressed exactly when
    its random draw is strictly positive, and is forwarded to the logging
    function when the draw is exactly 0; a call with [sampling = 100] is
    always forwarded, without a draw and without any change of state. *)
Theorem sampling_0_and_100 `{Platform} (c : Closure) (a : list PyVal)
    (w : World) :
  let kw0 := {| kw_sampling := Some 0; kw_first_n := None |} in
  let kw100 := {| kw_sampling := Some 100; kw_first_n := None |} in
  (fst (conditional_log c a kw0 w) = Suppressed
   <-> (0 < random_random w 0%nat)%Q)
  /\ (fst (conditional_log c a kw0 w) = Forwarded (wrapped c) a
      <-> (random_random w 0%nat <= 0)%Q)
  /\ conditional_log c a kw100 w = (Forwarded (wrapped c) a, w).
Proof.
  cbn zeta. unfold conditional_log; simpl.
  pose proof (float_mul_100_sign (random_random w 0%nat)) as Hsign.
  destruct (Qltb (inject_Z 0) (float_mul (random_random w 0%nat) 100)) eqn:Hd;
    simpl.
  - apply Qltb_true in Hd. change (inject_Z 0) with 0%Q in Hd.
    assert (0 < random_random w 0%nat)%Q as Hpos by by apply Hsign.
    repeat split; try done. intros Hle. lra.
  - apply Qltb_false in Hd. change (inject_Z 0) with 0%Q in Hd.
    assert (random_random w 0%nat <= 0)%Q as Hle.
    { apply Qnot_lt_le. intros Hpos. apply Hsign in Hpos. lra. }
    repeat split; try done. intros Hpos. lra.
Qed.

(** C7 as stated fails: [random.random()] may return 0, and then a call
    with [sampling = 0] is not suppressed. *)
Lemma sampling_0_draw_0_is_logged :
  (0 <= random_random example_world 0%nat * 100 < 100)%Q
  /\ fst (@conditional_log example_platform
            {| wrapped := "info"; counter := 0 |} [PyStr "tick"]
            {| kw_sampling := Some 0; kw_first_n := None |} example_world)
     <> Suppressed.
Proof. split; [split; vm_compute; congruence | vm_compute; discriminate]. Qed.

(** C8 (amended).  The occurrence counters are one dictionary per wrapper:
    the module binds fourteen closures, each with a dictionary of its own.
    A dictionary is keyed by the hash of the message text alone (the call
    site is no input of [conditional_log]), so a call with [first_n = k > 0]
    through a wrapper consults and increments the counter that every text
    with the same hash has in that wrapper, and leaves the counters of
    every other wrapper as they were. *)
Theorem counters_are_per_wrapper `{Platform} (c c2 : Closure) (s s2 : string)
    (rest : list PyVal) (k : Z) (w w0 : World) :
  0 < k ->
  is_Some (counters w !! counter c) ->
  let w' := snd (conditional_log c (PyStr s :: rest)
                   {| kw_sampling := None; kw_first_n := Some k |} w) in
  let v := counter_value c s w in
  (md5_hexdigest s2 = md5_hexdigest s ->
   counter_value c s2 w = v
   /\ counter_value c s2 w' = if v >? k then v else v + 1)
  /\ (counter c2 <> counter c ->
      counter_value c2 s2 w' = counter_value c2 s2 w)
  /\ NoDup (counter <$> wrappers_list (fst (module_wrappers w0))).
Proof.
  intros Hk [d Hd]. cbn zeta.
  rewrite (conditional_log_first_n c s rest k w d Hk Hd).
  assert (counter_value c s w = default 0 (d !! md5_hexdigest s)) as Hv.
  { unfold counter_value. by rewrite Hd. }
  rewrite <- Hv. split; [|split].
  - intros Hhash.
    assert (counter_value c s2 w = counter_value c s w) as Hsame.
    { unfold counter_value. by rewrite Hhash. }
    split; [done|].
    destruct (counter_value c s w >? k); simpl; [done|].
    unfold counter_value at 1. rewrite Hhash. simpl.
    rewrite list_lookup_insert_eq by (by eapply lookup_lt_Some).
    simpl. by rewrite lookup_insert_eq.
  - intros Hne. destruct (counter_value c s w >? k); simpl; [done|].
    unfold counter_value; simpl.
    by rewrite list_lookup_insert_ne by done.
  - simpl. rewrite !length_app. simpl.
    repeat (apply NoDup_cons; split;
              [rewrite ?elem_of_cons, elem_of_nil; lia|]).
    apply NoDup_nil_2.
Qed.

Lemma counters_are_per_wrapper_witness :
  let '(ws, w) := module_wrappers example_world in
  let w' := snd (@conditional_log example_platform (debug ws) [PyStr "x"]
                   {| kw_sampling := None; kw_first_n := Some 1 |} w) in
  @counter_value example_platform (debug ws) "x" w' = 1
  /\ @counter_value example_platform (info ws) "x" w'
     = @counter_value example_platform (info ws) "x" w.
Proof.
  destruct (module_wrappers example_world) as [ws w] eqn:Hm.
  assert (is_Some (counters w !! counter (debug ws))) as Hs.
  { injection Hm as <- <-. vm_compute. eauto. }
  assert (counter (info ws) <> counter (debug ws)) as Hne.
  { injection Hm as <- <-. vm_compute. discriminate. }
  assert (@counter_value example_platform (debug ws) "x" w = 0) as H0.
  { injection Hm as <- <-. vm_compute. reflexivity. }
  pose proof (@counters_are_per_wrapper example_platform (debug ws) (info ws)
                "x" "x" [] 1 w example_world ltac:(lia) Hs) as Hw.
  cbn zeta in Hw. destruct Hw as (Hsame & Hother & _).
  destruct (Hsame eq_refl) as [_ Hbump]. rewrite H0 in Hbump.
  split; [exact Hbump | exact (Hother Hne)].
Defined.

(** C8 as stated fails: [debug] and [info] do not share a counter.  After
    one [debug] call with [first_n = 1] the counter of the text is 1 in
    [debug] and still 0 in [info]; after three such calls [debug] is
    suppressed while [info] with the same text and [first_n] is logged. *)
Lemma debug_and_info_do_not_share_a_counter :
  let '(ws, w) := module_wrappers example_world in
  let kw := {| kw_sampling := None; kw_first_n := Some 1 |} in
  let w1 := snd (@conditional_log example_platform (debug ws) [PyStr "x"] kw w) in
  let '(outs, w3) := @repeat_log example_platform 3 (debug ws) [PyStr "x"] kw w in
  @counter_value example_platform (debug ws) "x" w1 = 1
  /\ @counter_value example_platform (info ws) "x" w1 = 0
  /\ outs = [Forwarded "debug" [PyStr "x"]; Forwarded "debug" [PyStr "x"];
             Suppressed]
  /\ fst (@conditional_log example_platform (info ws) [PyStr "x"] kw w3)
     = Forwarded "info" [PyStr "x"].
Proof. vm_compute. repeat split; reflexivity. Qed.

(** C10.  With [first_n <= 0] (also [first_n = 0], and the default [-1])
    the first-N mechanism does nothing.  The call is the same call without
    [first_n]; the counter dictionaries are left as they were and have no
    part in the outcome; the call does not raise: it is suppressed when
    [sampling < 100] and [sampling] is less than the draw times 100 (the
    product of floats), and forwarded otherwise; the hash function has no
    part in the result.  So counting and first-N suppression happen only
    for [first_n > 0]. *)
Theorem first_n_nonpositive_inactive `{Platform} (c : Closure)
    (a : list PyVal) (kwargs : Kwargs) (w : World) :
  default (-1) (kw_first_n kwargs) <= 0 ->
  let sampling := default 100 (kw_sampling kwargs) in
  let out := conditional_log c a kwargs w in
  counters (snd out) = counters w
  /\ fst out =
     (if (sampling <? 100)
         && Qltb (inject_Z sampling) (float_mul (random_random w 0%nat) 100)
      then Suppressed else Forwarded (wrapped c) a)
  /\ out = conditional_log c a
             {| kw_sampling := kw_sampling kwargs; kw_first_n := None |} w
  /\ (forall cs, fst (conditional_log c a kwargs (set_counters cs w)) = fst out)
  /\ forall other : Platform, @conditional_log other c a kwargs w = out.
Proof.
  intros Hn. cbn zeta. unfold conditional_log.
  cbn [kw_sampling kw_first_n].
  assert ((default (-1) (kw_first_n kwargs) >? 0) = false) as -> by lia.
  destruct (default 100 (kw_sampling kwargs) <? 100); simpl;
    [destruct (Qltb _ _); simpl|]; done.
Qed.

Lemma first_n_nonpositive_inactive_witness :
  let ws := fst (module_wrappers example_world) in
  let w := snd (module_wrappers example_world) in
  let w3 :=
    snd (@repeat_log example_platform 3 (debug ws) [PyStr "x"]
           {| kw_sampling := None; kw_first_n := Some 1 |} w) in
  @counter_value example_platform (debug ws) "x" w3 = 2
  /\ fst (@conditional_log example_platform (debug ws) [PyStr "x"]
            {| kw_sampling := None; kw_first_n := Some 1 |} w3) = Suppressed
  /\ let out := @conditional_log example_platform (debug ws) [PyStr "x"]
                  {| kw_sampling := None; kw_first_n := Some 0 |} w3 in
     counters (snd out) = counters w3
     /\ fst out = Forwarded "debug" [PyStr "x"].
Proof.
  cbn zeta.
  pose proof (@first_n_nonpositive_inactive example_platform
                (debug (fst (module_wrappers example_world))) [PyStr "x"]
                {| kw_sampling := None; kw_first_n := Some 0 |}
                (snd (@repeat_log example_platform 3
                        (debug (fst (module_wrappers example_world)))
                        [PyStr "x"]
                        {| kw_sampling := None; kw_first_n := Some 1 |}
                        (snd (module_wrappers example_world))))
                ltac:(simpl; lia)) as Hw.
  cbn zeta in Hw. destruct Hw as (Hc & Ho & _).
  split; [vm_compute; reflexivity|].
  split; [vm_compute; reflexivity|].
  split; [exact Hc | exact Ho].
Defined.

(** ** Facts about the stack trace *)

Lemma format_stacktrace_map (stack : list FrameSummary) :
  format_stacktrace stack = stacktrace_line <$> stack.
Proof.
  unfold format_stacktrace.
  enough (forall acc, fold_left (fun lines f => (lines ++ [stacktrace_line f])%list)
                        stack acc = (acc ++ (stacktrace_line <$> stack))%list)
    as Hgen by apply (Hgen []).
  induction stack as [|f stack IH]; intros acc; simpl.
  - by rewrite app_nil_r.
  - by rewrite IH, <- app_assoc.
Qed.

Lemma trimmed_stack_app `{Platform} (callers : list FrameSummary)
    (f : FrameSummary) :
  trimmed_stack (callers ++ [f])%list = callers.
Proof.
  unfold trimmed_stack, extract_stack.
  rewrite <- app_assoc. simpl. rewrite length_app. simpl.
  replace (length callers + 2 - 2)%nat with (length callers) by lia.
  by rewrite take_app_length.
Qed.

Lemma rfind_ge (c : ascii) (s : string) : -1 <= rfind c s.
Proof. induction s as [|a s IH]; simpl; [lia|]. repeat case_match; lia. Qed.

Lemma rfind_absent (c : ascii) (s : string) :
  rfind c s = -1 <-> string_mem c s = false.
Proof.
  induction s as [|a s IH]; simpl; [done|].
  pose proof (rfind_ge c s).
  destruct (rfind c s >=? 0) eqn:Hr.
  - assert (rfind c s <> -1) as Hne by lia.
    split; [lia|]. intros [_ Hm]%orb_false_iff. by apply IH in Hm.
  - assert (rfind c s = -1) as Heq by lia. apply IH in Heq. rewrite Heq.
    destruct (Ascii.eqb a c); simpl; split; done.
Qed.


(** ** Facts about the failure report *)

Section Report.
Context `{Platform}.

(** The loop over the trace lines hands one DEBUG record per line to the
    sink and touches nothing else. *)
Lemma for_each_trace_line (fn : string) (lno : Z) (lines : list string)
    (w : World) :
  exists w' rs,
    for_each lines (fun ln =>
      log_record <- makeRecord "DEBUG" 10 fn lno ln ArgsNone ;;
      handle log_record) w = (Ret tt, w')
    /\ handled w' = (handled w ++ rs)%list
    /\ seen <$> rs = (fun ln => ("DEBUG", logging_DEBUG, fn, lno, ln)) <$> lines
    /\ counters w' = counters w
    /\ random_random w' = random_random w.
Proof.
  revert w. induction lines as [|ln lines IH]; intros w.
  - exists w, []. simpl. by rewrite app_nil_r.
  - cbn [for_each]. unfold bind at 1. unfold bind at 1. simpl.
    set (r := {| name := "DEBUG" |}).
    set (w1 := set_handled _ _).
    destruct (IH w1) as (w' & rs & Hrun & Hh & Hs & Hc & Hr).
    exists w', (r :: rs). rewrite Hrun. split; [done|].
    split; [rewrite Hh; unfold w1; simpl; by rewrite <- app_assoc|].
    split; [by rewrite !fmap_cons, Hs|]. by rewrite Hc, Hr.
Qed.

(** [check_failed] entered from a function whose frame is [prim], itself
    called from [site]: the report goes to the sink, then the failure is
    raised. *)
Lemma check_failed_report (callers : list FrameSummary)
    (site prim : FrameSummary) (message : string) (w : World) :
  exists w' rs,
    check_failed (callers ++ [site; prim])%list message w
      = (Raise (FailedCheckException message), w')
    /\ handled w' = (handled w ++ rs)%list
    /\ seen <$> rs
       = failure_report site message (stacktrace_line <$> (callers ++ [site])%list)
    /\ counters w' = counters w
    /\ random_random w' = random_random w.
Proof.
  unfold check_failed.
  replace (callers ++ [site; prim])%list
    with ((callers ++ [site]) ++ [prim])%list by by rewrite <- app_assoc.
  rewrite trimmed_stack_app, last_snoc, format_stacktrace_map.
  unfold try_except, raise at 1. unfold bind at 1. unfold bind at 1.
  unfold bind at 1. unfold bind at 1. simpl.
  set (r1 := {| name := "CRITICAL" |}). set (r2 := {| name := "DEBUG" |}).
  set (w2 := set_handled _ _).
  destruct (for_each_trace_line (filename site) (f_lineno site)
              (stacktrace_line <$> (callers ++ [site])%list) w2)
    as (w' & rs & Hrun & Hh & Hs & Hc & Hr).
  unfold bind at 1. rewrite Hrun. unfold raise.
  exists w', (r1 :: r2 :: rs). split; [done|].
  split; [rewrite Hh; unfold w2; simpl; by rewrite <- !app_assoc|].
  split; [unfold failure_report; by rewrite !fmap_cons, Hs|].
  by rewrite Hc, Hr.
Qed.

Context {A : Type} `{PyObject A}.

(** Every primitive either returns at once or enters [check_failed] with
    its own frame on top of the caller's. *)
Lemma run_check_unfold (stack : list FrameSummary) (c : CheckCall A)
    (message : option string) :
  run_check stack c message =
  if failure_condition c
  then check_failed (stack ++ [primitive_frame c])%list
         (failure_message c message)
  else ret tt.
Proof.
  destruct c as [b|a b|a b|a b|a b|a b|a b|[o|]]; simpl;
    unfold check, check_eq, check_ne, check_le, check_ge, check_lt,
      check_gt, check_notnone;
    try done; repeat case_match; simpl; try done;
    by destruct message.
Qed.
End Report.

(** ** The check primitives *)

(** C1.  Every check primitive, called from [site] with a failing
    condition, hands to the sink one CRITICAL record with the failure
    message at the file and line of [site], then one DEBUG record with the
    text "Check failed here:", then one DEBUG record per line of the
    rendered stack trace, and after that raises [FailedCheckException] with
    the message; the exception is the result of the call.  With a condition
    that holds the primitive returns and the state is unchanged. *)
Theorem check_failure_protocol `{Platform} {A : Type} `{PyObject A}
    (callers : list FrameSummary) (site : FrameSummary) (c : CheckCall A)
    (message : option string) (w : World) :
  let out := run_check (callers ++ [site])%list c message w in
  if failure_condition c then
    exists rs,
      fst out = Raise (FailedCheckException (failure_message c message))
      /\ handled (snd out) = (handled w ++ rs)%list
      /\ seen <$> rs =
         failure_report site (failure_message c message)
           (format_stacktrace
              (trimmed_stack (callers ++ [site; primitive_frame c])%list))
  else out = (Ret tt, w).
Proof.
  cbn zeta. rewrite run_check_unfold.
  destruct (failure_condition c); [|done].
  rewrite <- app_assoc. simpl.
  destruct (check_failed_report callers site (primitive_frame c)
              (failure_message c message) w)
    as (w' & rs & Hrun & Hh & Hs & _).
  exists rs. rewrite Hrun. simpl. split; [done|]. split; [done|].
  replace (callers ++ [site; primitive_frame c])%list
    with ((callers ++ [site]) ++ [primitive_frame c])%list
    by by rewrite <- app_assoc.
  by rewrite trimmed_stack_app, format_stacktrace_map.
Qed.


(** C3 (amended).  In the report of a failed check the last rendered
    stack-trace line is the one of the failure site, the immediate caller
    of the primitive; the first rendered line is the one of the outermost
    frame of the stack; the lines are those of the callers, so none is the
    line of the primitive or of [check_failed]; and the records carry the
    file and line of the failure site. *)
Theorem last_trace_line_is_failure_site `{Platform} {A : Type} `{PyObject A}
    (callers : list FrameSummary) (site : FrameSummary) (c : CheckCall A)
    (message : option string) (w : World) :
  failure_condition c = true ->
  let w' := snd (run_check (callers ++ [site])%list c message w) in
  exists rs lines,
    handled w' = (handled w ++ rs)%list
    /\ msg <$> rs
       = (failure_message c message :: "Check failed here:" :: lines)
    /\ lines = stacktrace_line <$> (callers ++ [site])%list
    /\ last lines = Some (stacktrace_line site)
    /\ head lines = Some (stacktrace_line (hd site callers))
    /\ Forall (fun r => pathname r = filename site
                        /\ lineno r = f_lineno site) rs.
Proof.
  intros Hfail. cbn zeta. rewrite run_check_unfold, Hfail.
  rewrite <- app_assoc. simpl.
  destruct (check_failed_report callers site (primitive_frame c)
              (failure_message c message) w)
    as (w' & rs & Hrun & Hh & Hs & _).
  exists rs, (stacktrace_line <$> (callers ++ [site])%list).
  rewrite Hrun. simpl. split; [done|].
  assert (msg <$> rs = snd <$> (seen <$> rs)) as Hmsg.
  { rewrite <- list_fmap_compose. by apply list_fmap_ext. }
  split.
  { rewrite Hmsg, Hs. unfold failure_report. rewrite !fmap_cons. simpl.
    f_equal. f_equal. rewrite <- list_fmap_compose.
    rewrite <- (list_fmap_id (stacktrace_line <$> _)) at 2.
    by apply list_fmap_ext. }
  split; [done|].
  split; [rewrite fmap_app; simpl; by rewrite last_snoc|].
  split; [by destruct callers|].
  apply Forall_forall. intros r Hr.
  assert (seen r ∈ seen <$> rs) as Hin by by apply list_elem_of_fmap_2.
  rewrite Hs in Hin. unfold failure_report in Hin.
  rewrite !elem_of_cons, list_elem_of_fmap in Hin.
  destruct Hin as [Hin|[Hin|(ln & Hin & _)]]; unfold seen in Hin;
    by injection Hin as _ _ -> -> _.
Qed.

Lemma last_trace_line_is_failure_site_witness :
  exists rs lines,
    handled (snd (@check_eq example_platform Z PyObject_int
                    [example_top; example_site] 5 6 None example_world))
    = rs
    /\ msg <$> rs = "Check failed: 5 != 6" :: "Check failed here:" :: lines
    /\ last lines = Some (stacktrace_line example_site).
Proof.
  destruct (@last_trace_line_is_failure_site example_platform Z PyObject_int
              [example_top] example_site (CheckEq 5 6) None example_world
              eq_refl) as (rs & lines & Hh & Hm & _ & Hl & _).
  exists rs, lines. split; [exact Hh|]. split; [exact Hm | exact Hl].
Defined.

(** C3 as stated fails: called from [run], itself called from the module,
    a failing [check_eq] renders the module's frame first, not the frame of
    the failure site. *)
Lemma first_trace_line_is_not_failure_site :
  let w' := snd (@check_eq example_platform Z PyObject_int
                   [example_top; example_site] 5 6 None example_world) in
  (msg <$> handled w') !! 2%nat = Some (stacktrace_line example_top)
  /\ (msg <$> handled w') !! 2%nat <> Some (stacktrace_line example_site).
Proof. vm_compute. split; [reflexivity | discriminate]. Qed.

(** C4.  [check_le(a, b)] on integers raises the check failure exactly when
    [a > b] and returns, leaving the state as it was, exactly when
    [a <= b]; [check_le(3, 5)] and [check_le(5, 5)] return with nothing
    handed to the sink; [check_le(6, 5)] without a message fails with
    "Check failed: 6 > 5", which is also the message of the CRITICAL
    record. *)
Theorem check_le_fails_iff_gt `{Platform} (callers : list FrameSummary)
    (site : FrameSummary) (a b : Z) (message : option string) (w : World) :
  let stack := (callers ++ [site])%list in
  ((exists m, fst (check_le stack a b message w)
              = Raise (FailedCheckException m)) <-> a > b)
  /\ (check_le stack a b message w = (Ret tt, w) <-> a <= b)
  /\ check_le stack 3 5 None w = (Ret tt, w)
  /\ check_le stack 5 5 None w = (Ret tt, w)
  /\ fst (check_le stack 6 5 None w)
     = Raise (FailedCheckException "Check failed: 6 > 5")
  /\ (seen <$> handled (snd (check_le stack 6 5 None w))) !! length (handled w)
     = Some ("CRITICAL", logging_CRITICAL, filename site, f_lineno site,
             "Check failed: 6 > 5").
Proof.
  cbn zeta.
  assert (forall x y m,
    check_le (callers ++ [site])%list x y m w
    = if x >? y
      then check_failed (callers ++ [site; glog_frame "check_le" 279
                                       "check_failed(message)"])%list
             (default ("Check failed: " ++ pretty x ++ " > " ++ pretty y) m) w
      else (Ret tt, w)) as Hle.
  { intros x y m. unfold check_le; simpl. rewrite <- app_assoc. simpl.
    by destruct (x >? y). }
  assert (forall fr m, exists w' rs,
    check_failed (callers ++ [site; fr])%list m w
      = (Raise (FailedCheckException m), w')
    /\ handled w' = (handled w ++ rs)%list
    /\ seen <$> rs
       = failure_report site m (stacktrace_line <$> (callers ++ [site])%list))
    as Hcf.
  { intros fr m.
    destruct (check_failed_report callers site fr m w)
      as (w' & rs & Hrun & Hh & Hs & _). by exists w', rs. }
  assert (default ("Check failed: " ++ pretty 6 ++ " > " ++ pretty 5) None
          = "Check failed: 6 > 5") as Hm by reflexivity.
  split; [|split; [|split; [|split; [|split]]]].
  - rewrite Hle. destruct (a >? b) eqn:Hab.
    + destruct (Hcf (glog_frame "check_le" 279 "check_failed(message)")
                  (default ("Check failed: " ++ pretty a ++ " > " ++ pretty b)
                     message)) as (w' & rs & -> & _).
      split; [lia|]. intros _. by eexists.
    + split; [|lia]. by intros [m Hraise].
  - rewrite Hle. destruct (a >? b) eqn:Hab.
    + destruct (Hcf (glog_frame "check_le" 279 "check_failed(message)")
                  (default ("Check failed: " ++ pretty a ++ " > " ++ pretty b)
                     message)) as (w' & rs & -> & _).
      split; [done|lia].
    + split; [lia|done].
  - by rewrite Hle.
  - by rewrite Hle.
  - rewrite Hle. change (6 >? 5) with true. cbv iota. rewrite Hm.
    by destruct (Hcf (glog_frame "check_le" 279 "check_failed(message)")
                  "Check failed: 6 > 5") as (w' & rs & -> & _).
  - rewrite Hle. change (6 >? 5) with true. cbv iota. rewrite Hm.
    destruct (Hcf (glog_frame "check_le" 279 "check_failed(message)")
                "Check failed: 6 > 5") as (w' & rs & -> & Hh & Hs).
    simpl. rewrite Hh, fmap_app, Hs.
    rewrite lookup_app_r by (by rewrite length_fmap).
    by rewrite length_fmap, Nat.sub_diag.
Qed.

(** ** Facts about the formatter *)

Lemma pretty_N_char_digit (x : N) : is_digit (pretty_N_char x) = true.
Proof. unfold pretty_N_char. by repeat case_match. Qed.

Lemma pretty_N_go_digits (width : nat) (x : N) (s : string) :
  (x < 10 ^ N.of_nat width)%N ->
  (String.length (pretty_N_go x s) <= String.length s + width)%nat
  /\ (all_digits s = true -> all_digits (pretty_N_go x s) = true).
Proof.
  revert x s. induction width as [|width IH]; intros x s Hx.
  - assert (x = 0%N) as -> by (simpl in Hx; lia).
    rewrite pretty_N_go_0. split; [lia|done].
  - destruct (decide (x = 0%N)) as [->|Hne].
    { rewrite pretty_N_go_0. split; [lia|done]. }
    rewrite pretty_N_go_step by lia.
    assert (x `div` 10 < 10 ^ N.of_nat width)%N as Hdiv.
    { apply N.Div0.div_lt_upper_bound.
      replace (N.of_nat (S width)) with (N.succ (N.of_nat width)) in Hx by lia.
      by rewrite N.pow_succ_r' in Hx. }
    destruct (IH (x `div` 10)%N (String (pretty_N_char (x `mod` 10)) s) Hdiv)
      as [Hlen Hdig].
    split; [simpl in Hlen; lia|].
    intros Hs. apply Hdig. simpl. by rewrite pretty_N_char_digit, Hs.
Qed.

Lemma pretty_Z_digits (width : nat) (n : Z) :
  (1 <= width)%nat -> 0 <= n < 10 ^ Z.of_nat width ->
  (String.length (pretty n) <= width)%nat /\ all_digits (pretty n) = true.
Proof.
  intros Hw [Hn0 Hn]. destruct n as [|p|p]; [split; [simpl; lia|done]| |lia].
  unfold pretty, pretty_Z, pretty, pretty_positive, pretty, pretty_N.
  rewrite decide_False by done.
  assert (N.pos p < 10 ^ N.of_nat width)%N as Hp.
  { apply N2Z.inj_lt. rewrite N2Z.inj_pow, nat_N_Z. exact Hn. }
  destruct (pretty_N_go_digits width (N.pos p) "" Hp) as [Hlen Hdig].
  split; [exact Hlen | by apply Hdig].
Qed.

Lemma zeros_digits (k : nat) :
  String.length (zeros k) = k /\ all_digits (zeros k) = true.
Proof. induction k as [|k [IHl IHd]]; [done|]. simpl. by rewrite IHl, IHd. Qed.

Lemma all_digits_app (s t : string) :
  all_digits (s ++ t) = all_digits s && all_digits t.
Proof.
  induction s as [|a s IH]; [done|].
  rewrite string_app_cons. simpl. by rewrite IH, andb_assoc.
Qed.

(** A number that fits the width is padded to exactly that many digits. *)
Lemma fmt_0d_digits (width : nat) (n : Z) :
  (1 <= width)%nat -> 0 <= n < 10 ^ Z.of_nat width ->
  digits_exactly width (fmt_0d width n).
Proof.
  intros Hw Hn. unfold fmt_0d, digits_exactly.
  assert ((n <? 0) = false) as -> by lia.
  rewrite Z.abs_eq by lia.
  destruct (pretty_Z_digits width n Hw Hn) as [Hlen Hdig].
  change (String.length "") with 0%nat. rewrite Nat.sub_0_r.
  destruct (zeros_digits (width - String.length (pretty n))) as [Hzl Hzd].
  rewrite !string_app_length, !all_digits_app, Hzl, Hzd, Hdig.
  split; [simpl; lia|done].
Qed.

Lemma py_int_floor (x : Q) : (0 <= x)%Q -> py_int x = Qfloor x.
Proof.
  destruct x as [n d]. unfold Qle, py_int, Qfloor; simpl. intros Hx.
  apply Z.quot_div_nonneg; lia.
Qed.

(** The fraction of a double after the epoch is computed exactly, and is
    at most the double before 1. *)
Lemma fraction_range (t : Q) :
  (0 <= t)%Q -> is_double t ->
  let fr := float_sub t (float_of_int (py_int t)) in
  (0 <= fr <= 9007199254740991 # 9007199254740992)%Q.
Proof.
  intros Ht Hd. cbn zeta. rewrite (py_int_floor t Ht).
  unfold float_sub, float_of_int.
  destruct (Qlt_le_dec 0 t) as [Hpos|Hle].
  2:{ assert (t == 0)%Q as H0 by lra.
      rewrite (Qfloor_comp _ _ H0). change (Qfloor 0) with 0.
      rewrite (round_double_0 (t - _)); [done|].
      change (round_double (inject_Z 0)) with 0%Q. lra. }
  destruct (is_double_significand t Hpos Hd) as (m & k & Hm & Hmk).
  pose proof (pow2_pos k) as Hk.
  destruct (Z.le_gt_cases 0 k) as [Hk0|Hk0].
  - assert (t == inject_Z (m * 2 ^ k))%Q as Hz.
    { by rewrite inject_Z_mult, pow2_Z. }
    rewrite (Qfloor_comp _ _ Hz), Qfloor_Z.
    rewrite (round_double_0 (t - _)); [done|].
    rewrite (round_double_exact _ m k); [lra|lia|].
    by rewrite inject_Z_mult, pow2_Z.
  - set (d := 2 ^ (- k)).
    assert (0 < d) as Hd0 by (apply Z.pow_pos_nonneg; lia).
    assert (inject_Z d * 2 ^ k == 1)%Q as Hdk.
    { unfold d. rewrite pow2_Z, <- pow2_add by lia.
      by replace (- k + k) with 0 by lia. }
    assert (t == m # Z.to_pos d)%Q as Hz.
    { rewrite (Qmake_Qdiv m), Z2Pos.id, Hmk by exact Hd0.
      apply Qdiv_by; [|exact Hdk].
      change 0%Q with (inject_Z 0). rewrite <- Zlt_Qlt. exact Hd0. }
    rewrite (Qfloor_comp _ _ Hz).
    change (Qfloor (m # Z.to_pos d)) with (m / Z.pos (Z.to_pos d)).
    rewrite Z2Pos.id by exact Hd0.
    pose proof (Z.div_mod m d ltac:(lia)) as Hdm.
    pose proof (Z.mod_pos_bound m d Hd0) as Hr.
    assert (0 <= m / d) as Hq0 by (apply Z.div_pos; lia).
    assert (m / d <= m) as Hq1 by (apply Z.div_le_upper_bound; nia).
    assert (t - round_double (inject_Z (m / d))
            == inject_Z (m mod d) * 2 ^ k)%Q as Hfr.
    { rewrite round_double_Z by lia. rewrite Hmk.
      rewrite Hdm at 1. rewrite inject_Z_plus, inject_Z_mult.
      set (A := inject_Z (m / d)) in *. set (R := inject_Z (m mod d)) in *.
      set (D := inject_Z d) in *. set (K := (2 ^ k)%Q) in *.
      rewrite Qmult_plus_distr_l.
      assert (D * A * K == A * (D * K))%Q as -> by ring.
      rewrite Hdk. ring. }
    destruct (decide (m mod d = 0)) as [H0|H0].
    { rewrite (round_double_0 (t - _)); [done|].
      rewrite Hfr, H0. ring. }
    rewrite (round_double_exact _ (m mod d) k); [|lia|exact Hfr].
    rewrite Hfr. split.
    { apply Qmult_le_0_compat; [|lra].
      change 0%Q with (inject_Z 0). rewrite <- Zle_Qle. lia. }
    assert (inject_Z (m mod d) <= inject_Z d - 1)%Q as Hle.
    { change 1%Q with (inject_Z 1). rewrite <- inject_Z_sub, <- Zle_Qle. lia. }
    assert (inject_Z (m mod d) * 2 ^ k <= 1 - 2 ^ k)%Q as Hb.
    { rewrite <- Hdk at 1. 
      assert (inject_Z d * 2 ^ k - 2 ^ k == (inject_Z d - 1) * 2 ^ k)%Q
        as -> by ring.
      apply Qmult_le_compat_r; [exact Hle|lra]. }
    destruct (Z.le_gt_cases (- 53) k) as [Hk1|Hk1].
    + pose proof (pow2_le (- 53) k Hk1) as Hp.
      assert (2 ^ (- 53) == 1 # 9007199254740992)%Q as Hc by reflexivity.
      rewrite Hc in Hp. lra.
    + assert (inject_Z (m mod d) * 2 ^ k <= inject_Z m * 2 ^ k)%Q as Hb2.
      { apply Qmult_le_compat_r; [|lra]. rewrite <- Zle_Qle.
        apply Z.mod_le; lia. }
      assert (inject_Z m * 2 ^ k <= 2 ^ 53 * 2 ^ (- 54))%Q as Hb3.
      { apply Qle_trans with (inject_Z m * 2 ^ (- 54))%Q.
        - apply Qmult_le_l; [|apply pow2_le; lia].
          change 0%Q with (inject_Z 0). rewrite <- Zlt_Qlt. lia.
        - apply Qmult_le_compat_r; [|by apply Qlt_le_weak, pow2_pos].
          change (2 ^ 53)%Q with (inject_Z (2 ^ 53)). rewrite <- Zle_Qle. lia. }
      assert (2 ^ 53 * 2 ^ (- 54) == 1 # 2)%Q as Hc by reflexivity.
      rewrite Hc in Hb3. lra.
Qed.

(** The microseconds of a time after the epoch. *)
Lemma date_usec_range (t : Q) :
  (0 <= t)%Q -> is_double t ->
  0 <= py_int (date_usec t) < 1000000.
Proof.
  intros Ht Hd. pose proof (fraction_range t Ht Hd) as [Hf0 Hf1].
  cbn zeta in Hf0, Hf1. unfold date_usec.
  set (fr := float_sub _ _) in *. unfold float_mul.
  pose proof (round_double_nonneg (fr * 1000000) ltac:(lra)) as Hy0.
  assert (round_double (fr * 1000000) < 1000000)%Q as Hy1.
  { destruct (Qlt_le_dec 0 (fr * 1000000)) as [Hpos|Hle].
    2:{ rewrite round_double_0; [done|lra]. }
    destruct (round_double_upper _ Hpos) as (e & He & Hup).
    assert (e < 20) as He20.
    { apply pow2_lt_inv. eapply Qle_lt_trans; [exact He|].
      assert (2 ^ 20 == 1048576)%Q as -> by reflexivity. lra. }
    pose proof (pow2_le (e - 53) (- 34) ltac:(lia)) as Hp.
    assert (2 ^ (- 34) == 1 # 17179869184)%Q as Hc by reflexivity.
    rewrite Hc in Hp. lra. }
  rewrite (py_int_floor _ Hy0). split.
  - change 0 with (Qfloor 0). by apply Qfloor_resp_le.
  - rewrite Zlt_Qlt. eapply Qle_lt_trans; [apply Qfloor_le|exact Hy1].
Qed.


Lemma format_unfold `{Platform} (outer : FrameSummary)
    (stack : list FrameSummary) (record : LogRecord) (m : string) :
  format_message record = Ret m ->
  let date := time_localtime (created record) in
  format (outer :: stack) record =
  Ret (glog_line (default "?" (LEVEL_MAP !! levelno record))
         (fmt_0d 2 (tm_mon date)) (fmt_0d 2 (tm_mday date))
         (fmt_0d 2 (tm_hour date)) (fmt_0d 2 (tm_min date))
         (fmt_0d 2 (tm_sec date))
         (fmt_0d 6 (py_int (date_usec (created record))))
         (match process record with Some pid => pretty pid | None => "?????" end)
         (filename outer) (pretty (f_lineno outer)) m).
Proof.
  intros Hm. unfold format, inspect_stack. simpl rev.
  by rewrite last_snoc, Hm.
Qed.






(** ** More about the filter *)

(** X1.  With [first_n > 0] and the sampling test not in the way, a call
    without positional arguments raises [IndexError] and a call whose first
    argument is not a [str] raises [AttributeError]; in both cases nothing
    is logged and the state is left as it was. *)
Theorem first_n_needs_a_text `{Platform} (c : Closure) (a : list PyVal)
    (kwargs : Kwargs) (w : World) :
  0 < default (-1) (kw_first_n kwargs) ->
  100 <= default 100 (kw_sampling kwargs) ->
  (a = [] -> conditional_log c a kwargs w = (Raised IndexError, w))
  /\ (forall v rest, a = v :: rest -> (forall s, v <> PyStr s) ->
      conditional_log c a kwargs w = (Raised AttributeError, w)).
Proof.
  intros Hn Hs. unfold conditional_log.
  assert ((default 100 (kw_sampling kwargs) <? 100) = false) as -> by lia.
  assert ((default (-1) (kw_first_n kwargs) >? 0) = true) as -> by lia.
  split.
  - by intros ->.
  - intros v rest -> Hv. unfold first_n_step. simpl.
    destruct v as [|n|s]; [done|done|]. by destruct (Hv s).
Qed.

Lemma first_n_needs_a_text_witness :
  @conditional_log example_platform {| wrapped := "log"; counter := 0 |}
    [PyInt 20; PyStr "tick"] {| kw_sampling := None; kw_first_n := Some 3 |}
    example_world
  = (Raised AttributeError, example_world).
Proof.
  destruct (@first_n_needs_a_text example_platform
              {| wrapped := "log"; counter := 0 |} [PyInt 20; PyStr "tick"]
              {| kw_sampling := None; kw_first_n := Some 3 |} example_world
              ltac:(simpl; lia) ltac:(simpl; lia)) as [_ Hw].
  exact (Hw (PyInt 20) [PyStr "tick"] eq_refl ltac:(discriminate)).
Defined.

Lemma counter_value_insert_other `{Platform} (c c2 : Closure) (s2 : string)
    (d : gmap string Z) (w : World) :
  counter c2 <> counter c ->
  counter_value c2 s2 (set_counters (<[counter c := d]> (counters w)) w)
  = counter_value c2 s2 w.
Proof.
  intros Hne. unfold counter_value; simpl.
  by rewrite list_lookup_insert_ne by done.
Qed.

(** What one step on the dictionary of a closure does to a counter. *)
Lemma first_n_step_counter `{Platform} (a : list PyVal) (k : Z)
    (d d' : gmap string Z) (go : bool) (key : string) :
  first_n_step a k d = inr (go, d') ->
  let v := default 0 (d !! key) in
  let v' := default 0 (d' !! key) in
  v <= v' <= v + 1
  /\ ((forall s, a !! 0%nat = Some (PyStr s) -> md5_hexdigest s <> key) ->
      v' = v).
Proof.
  unfold first_n_step. destruct (a !! 0%nat) as [[|n|s]|]; try done.
  unfold defaultdict_get.
  destruct (d !! md5_hexdigest s) as [v0|] eqn:Hv0; simpl.
  - destruct (v0 >? k); intros [= <- <-]; cbn zeta.
    + split; [lia|done].
    + destruct (decide (md5_hexdigest s = key)) as [<-|Hne].
      * rewrite lookup_insert_eq, Hv0. simpl. split; [lia|].
        intros Hk. by destruct (Hk s eq_refl).
      * rewrite lookup_insert_ne by done. split; [lia|done].
  - destruct (0 >? k); intros [= <- <-]; cbn zeta.
    + destruct (decide (md5_hexdigest s = key)) as [<-|Hne].
      * rewrite lookup_insert_eq, Hv0. simpl. split; [lia|done].
      * rewrite lookup_insert_ne by done. split; [lia|done].
    + rewrite insert_insert_eq.
      destruct (decide (md5_hexdigest s = key)) as [<-|Hne].
      * rewrite lookup_insert_eq, Hv0. simpl. split; [lia|].
        intros Hk. by destruct (Hk s eq_refl).
      * rewrite lookup_insert_ne by done. split; [lia|done].
Qed.

(** X2.  A call never lowers a counter and raises it by at most one; the
    counters of other closures, and those of texts whose hash differs from
    the hash of the call's text, stay as they were. *)
Theorem counters_only_grow `{Platform} (c c2 : Closure) (a : list PyVal)
    (kwargs : Kwargs) (s2 : string) (w : World) :
  let w' := snd (conditional_log c a kwargs w) in
  counter_value c2 s2 w <= counter_value c2 s2 w' <= counter_value c2 s2 w + 1
  /\ (counter c2 <> counter c
      \/ (forall s, a !! 0%nat = Some (PyStr s) ->
                    md5_hexdigest s <> md5_hexdigest s2) ->
      counter_value c2 s2 w' = counter_value c2 s2 w).
Proof.
  cbn zeta. unfold conditional_log.
  set (w1 := if default 100 (kw_sampling kwargs) <? 100 then _ else _).
  assert (exists b w0, w1 = (b, w0) /\ counters w0 = counters w)
    as (b & w0 & -> & Hc).
  { unfold w1. destruct (_ <? 100); simpl; eauto. }
  assert (forall c' s', counter_value c' s' w0 = counter_value c' s' w) as Hcv.
  { intros c' s'. unfold counter_value. by rewrite Hc. }
  destruct b; simpl; [rewrite Hcv; split; [lia|done]|].
  destruct (_ >? 0); simpl; [|rewrite Hcv; split; [lia|done]].
  destruct (first_n_step a _ _) as [e|[go d']] eqn:Hstep;
    [simpl; rewrite Hcv; split; [lia|done]|].
  assert (counter_value c2 s2
            (set_counters (<[counter c := d']> (counters w0)) w0)
          = if decide (counter c2 = counter c)
            then (if decide (counter c < length (counters w0))%nat
                  then default 0 (d' !! md5_hexdigest s2)
                  else counter_value c2 s2 w)
            else counter_value c2 s2 w) as Hval.
  { destruct (decide (counter c2 = counter c)) as [Heq|Hne].
    - unfold counter_value; simpl. rewrite Heq.
      destruct (decide (counter c < length (counters w0))%nat) as [Hlt|Hge].
      + by rewrite list_lookup_insert_eq by done.
      + rewrite list_insert_ge by lia. by rewrite Hc.
    - rewrite counter_value_insert_other by done. apply Hcv. }
  enough (counter_value c2 s2 w
          <= counter_value c2 s2
               (set_counters (<[counter c := d']> (counters w0)) w0)
          <= counter_value c2 s2 w + 1
          /\ (counter c2 <> counter c
              \/ (forall s, a !! 0%nat = Some (PyStr s) ->
                            md5_hexdigest s <> md5_hexdigest s2) ->
              counter_value c2 s2
                (set_counters (<[counter c := d']> (counters w0)) w0)
              = counter_value c2 s2 w)) by by destruct go.
  rewrite Hval.
  destruct (decide (counter c2 = counter c)) as [Heq|Hne]; [|split; [lia|done]].
  destruct (decide (counter c < length (counters w0))%nat) as [Hlt|Hge];
    [|split; [lia|done]].
  destruct (first_n_step_counter a _ _ d' go (md5_hexdigest s2) Hstep)
    as [Hrange Hsame]. cbn zeta in Hrange, Hsame.
  assert (counter_value c2 s2 w
          = default 0 (default ∅ (counters w0 !! counter c) !! md5_hexdigest s2))
    as Hold.
  { unfold counter_value. by rewrite Heq, Hc. }
  rewrite Hold. split; [exact Hrange|].
  intros [Hne|Hhash]; [done|]. by apply Hsame.
Qed.

Lemma repeat_log_counter `{Platform} (c : Closure) (s : string)
    (rest : list PyVal) (k : Z) (n : nat) (w : World) :
  0 < k ->
  is_Some (counters w !! counter c) ->
  let v := counter_value c s w in
  counter_value c s
    (snd (repeat_log n c (PyStr s :: rest)
            {| kw_sampling := None; kw_first_n := Some k |} w))
  = Z.max v (Z.min (v + Z.of_nat n) (k + 1)).
Proof.
  intros Hk. revert w. induction n as [|n IH]; intros w [d Hd]; cbn zeta.
  { simpl. lia. }
  cbn [repeat_log].
  rewrite (conditional_log_first_n c s rest k w d Hk Hd).
  assert (counter_value c s w = default 0 (d !! md5_hexdigest s)) as Hv.
  { unfold counter_value. by rewrite Hd. }
  rewrite <- Hv.
  destruct (counter_value c s w >? k) eqn:Hcmp.
  - specialize (IH w (ex_intro _ d Hd)). cbn zeta in IH.
    destruct (repeat_log n c _ _ w) as [os w'] eqn:Hr. simpl in *.
    rewrite IH. lia.
  - set (w1 := set_counters _ w).
    assert (is_Some (counters w1 !! counter c)) as Hs.
    { unfold w1; simpl. apply lookup_lt_is_Some. rewrite length_insert.
      by eapply lookup_lt_Some. }
    specialize (IH w1 Hs). cbn zeta in IH.
    destruct (repeat_log n c _ _ w1) as [os w'] eqn:Hr. simpl in *.
    rewrite IH. unfold w1. rewrite (counter_value_step c s d _ w Hd). lia.
Qed.

(** X3.  Counting stops: after [n] calls with the same text and
    [first_n = k > 0] through a new wrapper, the counter of the text is
    [min n (k + 1)]; suppressed calls are not counted. *)
Theorem counter_stops_at_first_n_plus_one `{Platform} (nm s : string)
    (rest : list PyVal) (k : Z) (n : nat) (w0 : World) :
  0 < k ->
  let '(c, w) := log_wrapper nm w0 in
  counter_value c s
    (snd (repeat_log n c (PyStr s :: rest)
            {| kw_sampling := None; kw_first_n := Some k |} w))
  = Z.min (Z.of_nat n) (k + 1).
Proof.
  intros Hk.
  pose proof (log_wrapper_fresh nm w0) as Hfresh.
  destruct (log_wrapper nm w0) as [c w]. destruct Hfresh as [Hd _].
  pose proof (repeat_log_counter c s rest k n w Hk (ex_intro _ ∅ Hd)) as Hrun.
  cbn zeta in Hrun. rewrite Hrun.
  assert (counter_value c s w = 0) as ->.
  { unfold counter_value. by rewrite Hd. }
  lia.
Qed.

Lemma counter_stops_at_first_n_plus_one_witness :
  let '(c, w) := log_wrapper "debug" example_world in
  @counter_value example_platform c "same text"
    (snd (@repeat_log example_platform 7 c [PyStr "same text"]
            {| kw_sampling := None; kw_first_n := Some 2 |} w))
  = 3.
Proof.
  pose proof (@counter_stops_at_first_n_plus_one example_platform
                "debug" "same text" [] 2 7 example_world ltac:(lia)) as Hw.
  destruct (log_wrapper "debug" example_world) as [c w]. exact Hw.
Defined.

(** X4.  [conditional_log] makes one random draw before its tail call
    when [sampling < 100] and none otherwise, whatever the outcome.  A call
    that does not reach the tail call (it is suppressed, or it raises)
    reads no clock and hands nothing to the handler. *)
Theorem one_draw_per_sampled_call `{Platform} (c : Closure) (a : list PyVal)
    (kwargs : Kwargs) (w : World) (i : nat) :
  let out := conditional_log c a kwargs w in
  random_random (snd out) i
  = random_random w (if default 100 (kw_sampling kwargs) <? 100
                     then S i else i)
  /\ (is_forwarded (fst out) = false ->
      time_time (snd out) = time_time w /\ handled (snd out) = handled w).
Proof.
  cbn zeta. unfold conditional_log.
  destruct (default 100 (kw_sampling kwargs) <? 100); simpl.
  - destruct (Qltb _ _); simpl; [done|].
    destruct (_ >? 0); [|done].
    destruct (first_n_step _ _ _) as [e|[[] d]]; done.
  - destruct (_ >? 0); [|done].
    destruct (first_n_step _ _ _) as [e|[[] d]]; done.
Qed.

Lemma one_draw_per_sampled_call_witness :
  let halves := fun i : nat => (1 # Pos.pow 2 (Pos.of_succ_nat i))%Q in
  let c := fst (log_wrapper "info" (set_random halves example_world)) in
  let w := snd (log_wrapper "info" (set_random halves example_world)) in
  let out := @conditional_log example_platform c [PyStr "tick"]
               {| kw_sampling := Some 10; kw_first_n := None |} w in
  fst out = Suppressed
  /\ random_random (snd out) 0%nat = (1 # 4)%Q
  /\ time_time (snd out) = time_time w /\ handled (snd out) = handled w.
Proof.
  cbn zeta.
  destruct (@one_draw_per_sampled_call example_platform
              (fst (log_wrapper "info"
                      (set_random
                         (fun i : nat => (1 # Pos.pow 2 (Pos.of_succ_nat i))%Q)
                         example_world)))
              [PyStr "tick"]
              {| kw_sampling := Some 10; kw_first_n := None |}
              (snd (log_wrapper "info"
                      (set_random
                         (fun i : nat => (1 # Pos.pow 2 (Pos.of_succ_nat i))%Q)
                         example_world)))
              0%nat) as [Hd Hq].
  split; [vm_compute; reflexivity|].
  split; [exact Hd|]. apply Hq. vm_compute. reflexivity.
Defined.

(** X5.  Sampling comes first: a call with [sampling < 100] whose
    [sampling] is less than the draw times 100 (the product of floats) is
    suppressed without a look at its arguments or at [first_n]; it raises
    nothing and counts nothing. *)
Theorem sampled_out_call_counts_nothing `{Platform} (c : Closure)
    (a : list PyVal) (kwargs : Kwargs) (w : World) :
  let sampling := default 100 (kw_sampling kwargs) in
  sampling < 100 ->
  (inject_Z sampling < float_mul (random_random w 0%nat) 100)%Q ->
  fst (conditional_log c a kwargs w) = Suppressed
  /\ counters (snd (conditional_log c a kwargs w)) = counters w.
Proof.
  cbn zeta. intros Hs Hr. unfold conditional_log.
  assert ((default 100 (kw_sampling kwargs) <? 100) = true) as -> by lia.
  simpl. apply Qltb_true in Hr. by rewrite Hr.
Qed.

Lemma sampled_out_call_counts_nothing_witness :
  let w := set_random (fun _ => 1 # 2) example_world in
  fst (@conditional_log example_platform {| wrapped := "info"; counter := 0 |}
         [] {| kw_sampling := Some 10; kw_first_n := Some 1 |} w)
  = Suppressed.
Proof.
  destruct (@sampled_out_call_counts_nothing example_platform
              {| wrapped := "info"; counter := 0 |} []
              {| kw_sampling := Some 10; kw_first_n := Some 1 |}
              (set_random (fun _ => 1 # 2) example_world)
              ltac:(simpl; lia) ltac:(vm_compute; reflexivity)) as [Hw _].
  exact Hw.
Defined.

(** The test is made on the product of floats: the double 0.51 is above
    51/100, but 0.51 * 100 is the double 51, so a call with
    [sampling = 51] and this draw passes the sampling test; with
    [first_n = 1] and no argument it then raises [IndexError]. *)
Lemma sampling_51_draw_051 :
  let r := (2296835809958953 # 4503599627370496)%Q in
  let w := set_random (fun _ => r) example_world in
  is_double r
  /\ (51 < r * 100)%Q
  /\ (float_mul r 100 == 51)%Q
  /\ fst (@conditional_log example_platform
            {| wrapped := "info"; counter := 0 |} []
            {| kw_sampling := Some 51; kw_first_n := Some 1 |} w)
     = Raised IndexError.
Proof. cbn zeta. repeat split; vm_compute; reflexivity. Qed.

(** X6.  The sampling threshold is monotone: with the same state and
    arguments, a call that is forwarded with [sampling = s] is forwarded
    with every [s' >= s]; and a negative [sampling] suppresses the call
    for every draw (draws are never negative). *)
Theorem sampling_is_monotone `{Platform} (c : Closure) (a : list PyVal)
    (s s' : Z) (first_n : option Z) (w : World) :
  s <= s' ->
  (0 <= random_random w 0%nat)%Q ->
  (fst (conditional_log c a {| kw_sampling := Some s; kw_first_n := first_n |} w)
   = Forwarded (wrapped c) a ->
   fst (conditional_log c a {| kw_sampling := Some s'; kw_first_n := first_n |} w)
   = Forwarded (wrapped c) a)
  /\ (s < 0 ->
      fst (conditional_log c a {| kw_sampling := Some s; kw_first_n := first_n |} w)
      = Suppressed).
Proof.
  intros Hle Hr. unfold conditional_log; simpl. split.
  - destruct (s <? 100) eqn:Hs; simpl.
    + destruct (Qltb (inject_Z s) _) eqn:Hq; simpl; [done|].
      apply Qltb_false in Hq.
      assert ((if s' <? 100
               then (Qltb (inject_Z s')
                       (float_mul (random_random w 0%nat) 100),
                     set_random (fun i => random_random w (S i)) w)
               else (false, w))
              = (false, if s' <? 100
                        then set_random (fun i => random_random w (S i)) w
                        else w)) as ->.
      { destruct (s' <? 100); [|done]. f_equal. apply Qltb_false.
        eapply Qle_trans; [exact Hq|]. rewrite <- Zle_Qle. exact Hle. }
      simpl. destruct (_ >? 0); [|by destruct (s' <? 100)].
      destruct (s' <? 100); simpl;
        destruct (first_n_step _ _ _) as [e|[[] d]]; done.
    + assert ((s' <? 100) = false) as -> by lia. done.
  - intros Hneg. assert ((s <? 100) = true) as -> by lia. simpl.
    assert (Qltb (inject_Z s) (float_mul (random_random w 0%nat) 100) = true)
      as ->.
    { apply Qltb_true. assert (inject_Z s < 0)%Q as Hs0.
      { change 0%Q with (inject_Z 0). rewrite <- Zlt_Qlt. exact Hneg. }
      pose proof (round_double_nonneg (random_random w 0%nat * 100)
                    ltac:(lra)) as Hp.
      unfold float_mul. lra. }
    done.
Qed.

Lemma sampling_is_monotone_witness :
  let w := set_random (fun _ => 1 # 2) example_world in
  fst (@conditional_log example_platform {| wrapped := "info"; counter := 0 |}
         [PyStr "tick"] {| kw_sampling := Some 80; kw_first_n := None |} w)
  = Forwarded "info" [PyStr "tick"].
Proof.
  destruct (@sampling_is_monotone example_platform
              {| wrapped := "info"; counter := 0 |} [PyStr "tick"] 60 80 None
              (set_random (fun _ => 1 # 2) example_world)
              ltac:(lia) ltac:(vm_compute; discriminate)) as [Hw _].
  exact (Hw eq_refl).
Defined.

(** ** More about the check primitives *)

Section ReportClock.
Context `{Platform}.

(** The loop over the trace lines, with the clock: the j-th record is
    created at the j-th coming reading. *)
Lemma for_each_trace_line_clock (fn : string) (lno : Z) (lines : list string)
    (w : World) :
  exists w' rs,
    for_each lines (fun ln =>
      log_record <- makeRecord "DEBUG" 10 fn lno ln ArgsNone ;;
      handle log_record) w = (Ret tt, w')
    /\ handled w' = (handled w ++ rs)%list
    /\ length rs = length lines
    /\ (forall i, time_time w' i = time_time w (length lines + i)%nat)
    /\ (forall j r, rs !! j = Some r ->
          created r = time_time w j /\ process r = os_getpid
          /\ args r = ArgsNone /\ Some (msg r) = lines !! j).
Proof.
  revert w. induction lines as [|ln lines IH]; intros w.
  - exists w, []. simpl. rewrite app_nil_r. repeat split; try done.
  - cbn [for_each]. unfold bind at 1. unfold bind at 1. simpl.
    set (r := {| name := "DEBUG" |}).
    set (w1 := set_handled _ _).
    destruct (IH w1) as (w' & rs & Hrun & Hh & Hlen & Ht & Hrs).
    exists w', (r :: rs). rewrite Hrun. split; [done|].
    split; [rewrite Hh; unfold w1; simpl; by rewrite <- app_assoc|].
    split; [simpl; by rewrite Hlen|].
    split.
    { intros i. rewrite Ht. unfold w1; simpl. f_equal; lia. }
    intros [|j] r' Hr'.
    + injection Hr' as <-. by repeat split.
    + destruct (Hrs j r' Hr') as (Hc & Hp & Ha & Hm).
      split; [by rewrite Hc|done].
Qed.

(** The whole report, with the clock. *)
Lemma check_failed_clock (callers : list FrameSummary)
    (site prim : FrameSummary) (message : string) (w : World) :
  exists w' rs,
    check_failed (callers ++ [site; prim])%list message w
      = (Raise (FailedCheckException message), w')
    /\ handled w' = (handled w ++ rs)%list
    /\ length rs = (length callers + 3)%nat
    /\ (forall i, time_time w' i = time_time w (length callers + 3 + i)%nat)
    /\ (forall j r, rs !! j = Some r ->
          created r = time_time w j /\ process r = os_getpid
          /\ args r = ArgsNone).
Proof.
  unfold check_failed.
  replace (callers ++ [site; prim])%list
    with ((callers ++ [site]) ++ [prim])%list by by rewrite <- app_assoc.
  rewrite trimmed_stack_app, last_snoc, format_stacktrace_map.
  unfold try_except, raise at 1. unfold bind at 1. unfold bind at 1.
  unfold bind at 1. unfold bind at 1. simpl.
  set (r1 := {| name := "CRITICAL" |}). set (r2 := {| name := "DEBUG" |}).
  set (w2 := set_handled _ _).
  destruct (for_each_trace_line_clock (filename site) (f_lineno site)
              (stacktrace_line <$> (callers ++ [site])%list) w2)
    as (w' & rs & Hrun & Hh & Hlen & Ht & Hrs).
  unfold bind at 1. rewrite Hrun. unfold raise.
  rewrite length_fmap, length_app in Hlen. simpl in Hlen.
  assert (forall i, time_time w' i = time_time w2 (length callers + 1 + i)%nat)
    as Ht'.
  { intros i. rewrite Ht, length_fmap, length_app. done. }
  exists w', (r1 :: r2 :: rs). split; [done|].
  split; [rewrite Hh; unfold w2; simpl; by rewrite <- !app_assoc|].
  split; [simpl; lia|].
  split.
  { intros i. rewrite Ht'. unfold w2; simpl. f_equal; lia. }
  intros [|[|j]] r Hr.
  - injection Hr as <-. by repeat split.
  - injection Hr as <-. by repeat split.
  - destruct (Hrs j r Hr) as (Hc & Hp & Ha & _).
    split; [by rewrite Hc|done].
Qed.
End ReportClock.

(** X7.  [check_failed] entered with fewer than two frames above it (called
    from top-level code, not through a primitive) finds no frame left after
    the trimming: it raises [IndexError], not the check failure, and
    nothing reaches the sink. *)
Theorem check_failed_needs_two_callers `{Platform}
    (callers : list FrameSummary) (message : string) (w : World) :
  (length callers <= 1)%nat ->
  check_failed callers message w = (Raise IndexError, w).
Proof.
  intros Hlen. unfold check_failed, trimmed_stack, extract_stack.
  destruct callers as [|f [|g callers]]; [done|done|simpl in Hlen; lia].
Qed.

Lemma check_failed_needs_two_callers_witness :
  @check_failed example_platform [example_top] "boom" example_world
  = (Raise IndexError, example_world).
Proof.
  exact (@check_failed_needs_two_callers example_platform [example_top]
           "boom" example_world ltac:(simpl; lia)).
Defined.

(** X8.  [check_failed] always skips its direct caller: called by a
    function [f] that was called from [g], it reports the failure at the
    file and line of [g], and the trace ends with the frame of [g]; the
    frame of [f] is in no record. *)
Theorem check_failed_skips_direct_caller `{Platform}
    (callers : list FrameSummary) (g f : FrameSummary) (message : string)
    (w : World) :
  let out := check_failed (callers ++ [g; f])%list message w in
  exists rs,
    fst out = Raise (FailedCheckException message)
    /\ handled (snd out) = (handled w ++ rs)%list
    /\ seen <$> rs
       = failure_report g message (stacktrace_line <$> (callers ++ [g])%list).
Proof.
  cbn zeta.
  destruct (check_failed_report callers g f message w)
    as (w' & rs & Hrun & Hh & Hs & _).
  exists rs. by rewrite Hrun.
Qed.

(** X9.  A failing check leaves the counters of the filter and the random
    source as they were, and reads the clock once per record: the j-th
    record of the report is created at the j-th reading and carries the
    process id of the platform, and afterwards the clock has advanced by
    the number of records, two more than the frames of the trace. *)
Theorem failing_check_reads_only_the_clock `{Platform} {A : Type}
    `{PyObject A} (callers : list FrameSummary) (site : FrameSummary)
    (c : CheckCall A) (message : option string) (w : World) :
  failure_condition c = true ->
  let w' := snd (run_check (callers ++ [site])%list c message w) in
  counters w' = counters w
  /\ random_random w' = random_random w
  /\ (forall i, time_time w' i = time_time w (length callers + 3 + i)%nat)
  /\ exists rs,
       handled w' = (handled w ++ rs)%list
       /\ length rs = (length callers + 3)%nat
       /\ forall j r, rs !! j = Some r ->
            created r = time_time w j /\ process r = os_getpid.
Proof.
  intros Hfail. cbn zeta. rewrite run_check_unfold, Hfail.
  rewrite <- app_assoc. simpl.
  destruct (check_failed_report callers site (primitive_frame c)
              (failure_message c message) w)
    as (w' & rs0 & Hrun & _ & _ & Hc & Hr).
  destruct (check_failed_clock callers site (primitive_frame c)
              (failure_message c message) w)
    as (w2 & rs & Hrun2 & Hh & Hlen & Ht & Hrs).
  rewrite Hrun in Hrun2. injection Hrun2 as <-. rewrite Hrun. simpl.
  split; [done|]. split; [done|]. split; [done|].
  exists rs. split; [done|]. split; [done|].
  intros j r Hj. destruct (Hrs j r Hj) as (? & ? & _). done.
Qed.

Lemma failing_check_reads_only_the_clock_witness :
  let w' := snd (@check_eq example_platform Z PyObject_int
                   [example_top; example_site] 5 6 None example_world) in
  counters w' = counters example_world
  /\ time_time w' 0%nat = time_time example_world 4%nat.
Proof.
  destruct (@failing_check_reads_only_the_clock example_platform Z
              PyObject_int [example_top] example_site (CheckEq 5 6) None
              example_world eq_refl) as (Hc & _ & Ht & _).
  split; [exact Hc | exact (Ht 0%nat)].
Defined.

Lemma run_check_raised `{Platform} {A : Type} `{PyObject A}
    (callers : list FrameSummary) (site : FrameSummary) (c : CheckCall A)
    (message : option string) (w : World) :
  raised (fst (run_check (callers ++ [site])%list c message w))
  = failure_condition c.
Proof.
  rewrite run_check_unfold. destruct (failure_condition c); [|done].
  rewrite <- app_assoc. simpl.
  by destruct (check_failed_report callers site (primitive_frame c)
                 (failure_message c message) w) as (w' & rs & -> & _).
Qed.

(** X10.  On integers the primitives come in complementary pairs: of
    [check_le(a, b)] and [check_gt(a, b)] exactly one raises, and so for
    [check_lt] and [check_ge], and for [check_eq] and [check_ne], whatever
    the messages given. *)
Theorem int_checks_are_complementary `{Platform}
    (callers : list FrameSummary) (site : FrameSummary) (a b : Z)
    (m1 m2 : option string) (w : World) :
  let stack := (callers ++ [site])%list in
  raised (fst (check_le stack a b m1 w))
    = negb (raised (fst (check_gt stack a b m2 w)))
  /\ raised (fst (check_lt stack a b m1 w))
     = negb (raised (fst (check_ge stack a b m2 w)))
  /\ raised (fst (check_eq stack a b m1 w))
     = negb (raised (fst (check_ne stack a b m2 w))).
Proof.
  cbn zeta.
  pose proof (run_check_raised callers site (CheckLe a b) m1 w) as Hle.
  pose proof (run_check_raised callers site (CheckGt a b) m2 w) as Hgt.
  pose proof (run_check_raised callers site (CheckLt a b) m1 w) as Hlt.
  pose proof (run_check_raised callers site (CheckGe a b) m2 w) as Hge.
  pose proof (run_check_raised callers site (CheckEq a b) m1 w) as Heq.
  pose proof (run_check_raised callers site (CheckNe a b) m2 w) as Hne.
  simpl in *. rewrite Hle, Hgt, Hlt, Hge, Heq, Hne.
  split; [|split].
  - destruct (Z.leb_spec a b), (Z.gtb_spec a b); simpl; lia.
  - destruct (Z.geb_spec a b), (Z.ltb_spec a b); simpl; lia.
  - done.
Qed.

(** ** More about the stack trace and the formatter *)

Lemma rfind_app_slash (dir nm : string) :
  string_mem "/" nm = false ->
  rfind "/" (dir ++ "/" ++ nm) = Z.of_nat (String.length dir).
Proof.
  intros Hnm. induction dir as [|a dir IH].
  - change ("" ++ "/" ++ nm) with (String "/" nm). simpl.
    apply rfind_absent in Hnm. by rewrite Hnm.
  - rewrite string_app_cons. cbn [rfind]. rewrite IH.
    assert ((Z.of_nat (String.length dir) >=? 0) = true) as -> by lia.
    simpl String.length. lia.
Qed.

Lemma string_from_app (dir s : string) :
  string_from (String.length dir) (dir ++ s) = s.
Proof. induction dir as [|a dir IH]; [by destruct s|]. by rewrite string_app_cons. Qed.

Lemma basename_join (dir nm : string) :
  string_mem "/" nm = false -> basename (dir ++ "/" ++ nm) = nm.
Proof.
  intros Hnm. unfold basename. rewrite (rfind_app_slash dir nm Hnm).
  replace (Z.to_nat (Z.of_nat (String.length dir) + 1))
    with (String.length (dir ++ "/")).
  { rewrite <- (string_app_assoc dir "/" nm). apply string_from_app. }
  rewrite string_app_length. simpl. lia.
Qed.

(** X11.  A trace line keeps the last component of the file path only: the
    basename of [dir/name] is [name] for every directory, so two frames
    that differ only in the directory of their file render the same
    line. *)
Theorem stacktrace_line_forgets_directory (dir1 dir2 nm fn text : string)
    (lno : Z) :
  string_mem "/" nm = false ->
  basename (dir1 ++ "/" ++ nm) = nm
  /\ stacktrace_line {| filename := dir1 ++ "/" ++ nm; f_lineno := lno;
                        f_name := fn; line := text |}
     = stacktrace_line {| filename := dir2 ++ "/" ++ nm; f_lineno := lno;
                          f_name := fn; line := text |}.
Proof.
  intros Hnm. split; [by apply basename_join|].
  unfold stacktrace_line; simpl. by rewrite !basename_join.
Qed.

Lemma stacktrace_line_forgets_directory_witness :
  basename ("/home/user/app" ++ "/" ++ "main.py") = "main.py".
Proof.
  destruct (stacktrace_line_forgets_directory "/home/user/app" "/srv/other"
              "main.py" "run" "pass" 7 eq_refl) as [Hw _].
  exact Hw.
Defined.

(** X12.  The formatted line does not depend on the logger name, the
    path or the line number that the record carries: the location it
    prints is the one of the outermost frame of the stack. *)
Theorem format_ignores_record_location `{Platform} (outer : FrameSummary)
    (stack : list FrameSummary) (record : LogRecord) (nm fn : string)
    (lno : Z) :
  let moved :=
    {| name := nm; levelno := levelno record; pathname := fn; lineno := lno;
       msg := msg record; args := args record; created := created record;
       process := process record |} in
  format (outer :: stack) moved = format (outer :: stack) record
  /\ (forall m, format_message record = Ret m ->
      exists before,
        format (outer :: stack) record
        = Ret (before ++ " " ++ filename outer ++ ":"
               ++ pretty (f_lineno outer) ++ "] " ++ m)).
Proof.
  cbn zeta. split; [done|].
  intros m Hm. rewrite (format_unfold outer stack record m Hm).
  unfold glog_line. eexists.
  by rewrite <- !(string_app_assoc _ _ (" " ++ filename outer ++ _)).
Qed.

(** X13.  Only [TypeError] is caught: any other exception raised by
    [msg % args] leaves [format_message] and [format], and no line is
    produced; and with no frame on the stack [format] raises
    [IndexError]. *)
Theorem format_lets_other_errors_through `{Platform}
    (stack : list FrameSummary) (outer : FrameSummary) (record : LogRecord)
    (e : exn) :
  str_mod (msg record) (args record) = Raise e ->
  e <> TypeError ->
  format_message record = Raise e
  /\ format (outer :: stack) record = Raise e
  /\ format [] record = Raise IndexError.
Proof.
  intros Hmod He.
  assert (format_message record = Raise e) as Hm.
  { unfold format_message. rewrite Hmod. by destruct e. }
  split; [done|]. split; [|done].
  unfold format, inspect_stack. simpl rev. by rewrite last_snoc, Hm.
Qed.

Lemma format_lets_other_errors_through_witness :
  @format example_platform [example_top]
    {| name := "root"; levelno := logging_INFO; pathname := "main.py";
       lineno := 3; msg := "done 100%"; args := ArgsTuple [];
       created := 0; process := None |}
  = Raise ValueError.
Proof.
  destruct (@format_lets_other_errors_through example_platform []
              example_top
              {| name := "root"; levelno := logging_INFO;
                 pathname := "main.py"; lineno := 3; msg := "done 100%";
                 args := ArgsTuple []; created := 0; process := None |}
              ValueError eq_refl ltac:(discriminate)) as (_ & Hw & _).
  exact Hw.
Defined.

(** ** The reference implementation of [%] on messages of checks *)

Lemma percent_go_other_char (c : ascii) (rest : string) (a : list PyVal) :
  c <> "%"%char ->
  percent_go (String c rest) a
  = match percent_go rest a with
    | Ret s => Ret (String c s)
    | Raise e => Raise e
    end.
Proof.
  intros Hc. destruct c as [[] [] [] [] [] [] [] []]; try done.
Qed.

Lemma string_mem_cons_false (x c : ascii) (s : string) :
  string_mem x (String c s) = false -> c <> x /\ string_mem x s = false.
Proof.
  simpl. intros [Hc Hs]%orb_false_iff. split; [|done].
  by apply Ascii.eqb_neq.
Qed.

(** Text before the first conversion is copied. *)
Lemma percent_go_prefix (pre t : string) (a : list PyVal) :
  string_mem "%" pre = false ->
  percent_go (pre ++ t) a
  = match percent_go t a with
    | Ret s => Ret (pre ++ s)
    | Raise e => Raise e
    end.
Proof.
  intros Hpre. induction pre as [|c pre IH].
  - change ("" ++ t) with t. by destruct (percent_go t a).
  - apply string_mem_cons_false in Hpre as [Hc Hpre].
    rewrite string_app_cons, percent_go_other_char, IH by done.
    by destruct (percent_go t a).
Qed.

Lemma percent_go_plain (m : string) (a : list PyVal) :
  string_mem "%" m = false ->
  percent_go m a = match a with [] => Ret m | _ :: _ => Raise TypeError end.
Proof.
  intros Hm. induction m as [|c m IH]; [done|].
  apply string_mem_cons_false in Hm as [Hc Hm].
  rewrite percent_go_other_char, IH by done. by destruct a.
Qed.

(** X14.  The records of a failure report are made with [args = None], so
    the formatter evaluates [message % None].  With the reference
    implementation of [%]: a message without ["%"] is printed as it is
    (through the [TypeError] fall-back), and a message with one [%s]
    prints [None] in its place. *)
Theorem check_message_is_formatted_against_None `{Platform} {A : Type}
    `{PyObject A} (callers : list FrameSummary) (site : FrameSummary)
    (c : CheckCall A) (message : option string) (w : World) :
  str_mod = percent_sd ->
  failure_condition c = true ->
  let w' := snd (run_check (callers ++ [site])%list c message w) in
  exists rs,
    handled w' = (handled w ++ rs)%list
    /\ (msg <$> rs) !! 0%nat = Some (failure_message c message)
    /\ Forall (fun r =>
         args r = ArgsNone
         /\ (string_mem "%" (msg r) = false -> format_message r = Ret (msg r))
         /\ (forall pre post, msg r = pre ++ "%s" ++ post ->
               string_mem "%" pre = false -> string_mem "%" post = false ->
               format_message r = Ret (pre ++ "None" ++ post))) rs.
Proof.
  intros Hmod Hfail. cbn zeta. rewrite run_check_unfold, Hfail.
  rewrite <- app_assoc. simpl.
  destruct (check_failed_report callers site (primitive_frame c)
              (failure_message c message) w)
    as (w' & rs0 & Hrun & Hh0 & Hs & _).
  destruct (check_failed_clock callers site (primitive_frame c)
              (failure_message c message) w)
    as (w2 & rs & Hrun2 & Hh & _ & _ & Hrs).
  rewrite Hrun in Hrun2. injection Hrun2 as <-. rewrite Hrun. simpl.
  assert (rs0 = rs) as -> by (rewrite Hh0 in Hh; by apply app_inv_head in Hh).
  exists rs. split; [done|]. split.
  { assert (msg <$> rs = snd <$> (seen <$> rs)) as ->.
    { rewrite <- list_fmap_compose. by apply list_fmap_ext. }
    by rewrite Hs. }
  apply Forall_lookup. intros j r Hj.
  destruct (Hrs j r Hj) as (_ & _ & Hargs).
  split; [done|]. unfold format_message. rewrite Hmod, Hargs. simpl.
  split.
  - intros Hplain. by rewrite percent_go_plain.
  - intros pre post -> Hpre Hpost.
    rewrite percent_go_prefix by done.
    change ("%s" ++ post) with (String "%" (String "s" post)).
    cbn [percent_go]. simpl. by rewrite percent_go_plain.
Qed.

Lemma check_message_is_formatted_against_None_witness :
  exists rs r,
    handled (snd (@check example_platform [example_top; example_site] false
                    (Some "bad value %s") example_world)) = rs
    /\ rs !! 0%nat = Some r
    /\ @format_message example_platform r = Ret "bad value None".
Proof.
  destruct (@check_message_is_formatted_against_None example_platform Z
              PyObject_int [example_top] example_site (Check false)
              (Some "bad value %s") example_world eq_refl eq_refl)
    as (rs & Hh & Hm & Hall).
  destruct rs as [|r rs]; [discriminate Hm|].
  exists (r :: rs), r. split; [exact Hh|]. split; [reflexivity|].
  apply Forall_cons in Hall as [(_ & _ & Hfmt) _].
  injection Hm as Hm.
  exact (Hfmt "bad value " "" Hm eq_refl eq_refl).
Defined.

(** ** The environment-gated accessor *)

(** The decimal text of a positive number starts with a digit from 1 to 9. *)
Lemma pretty_N_go_head (x : N) (s : string) :
  (0 < x)%N ->
  exists d t, pretty_N_go x s = String (pretty_N_char d) t /\ (1 <= d <= 9)%N.
Proof.
  revert s. induction (N.lt_wf_0 x) as [x _ IH]; intros s Hx.
  rewrite pretty_N_go_step by done.
  destruct (decide (x `div` 10 = 0)%N) as [Hz|Hnz].
  - rewrite Hz, pretty_N_go_0. exists (x `mod` 10)%N, s. split; [done|].
    pose proof (N.mod_lt x 10 ltac:(done)).
    pose proof (N.div_mod x 10 ltac:(done)). lia.
  - apply IH; [apply N.div_lt; lia | by apply N.neq_0_lt_0].
Qed.

Lemma pretty_pos_head (p : positive) :
  exists d t, pretty (Z.pos p) = String (pretty_N_char d) t /\ (1 <= d <= 9)%N.
Proof.
  unfold pretty, pretty_Z, pretty, pretty_positive, pretty, pretty_N.
  rewrite decide_False by done. by apply pretty_N_go_head.
Qed.

Lemma pretty_neg_head (p : positive) :
  exists t, pretty (Z.neg p) = String "-" t.
Proof.
  unfold pretty at 1, pretty_Z. destruct (pretty_pos_head p) as (d & t & Hp & _).
  change (pretty p) with (pretty (Z.pos p)). rewrite Hp. by eexists.
Qed.

Lemma leading_digit_above_zero (d : N) (t : string) :
  (1 <= d <= 9)%N -> String.leb (String (pretty_N_char d) t) "0" = false.
Proof.
  intros Hd.
  assert (d = 1 \/ d = 2 \/ d = 3 \/ d = 4 \/ d = 5 \/ d = 6 \/ d = 7
          \/ d = 8 \/ d = 9)%N as Hcases by lia.
  unfold String.leb. repeat destruct Hcases as [->|Hcases]; try done.
  by rewrite Hcases.
Qed.

(** X15.  With [DEBUG] not set in the environment the default ["0"] is
    compared, as text, with [str(verbosity)]: [lv(v)] is the module for
    every [v <= 0] and the no-op object for every [v >= 1]. *)
Theorem lv_without_DEBUG (environ : gmap string string) (v : Z) :
  environ !! "DEBUG" = None ->
  lv environ v = if v <=? 0 then GlogModule else NoOpObject.
Proof.
  intros Henv. unfold lv. rewrite Henv. simpl.
  destruct v as [|p|p].
  - done.
  - destruct (pretty_pos_head p) as (d & t & -> & Hd).
    by rewrite leading_digit_above_zero.
  - destruct (pretty_neg_head p) as (t & ->). done.
Qed.

Lemma lv_without_DEBUG_witness :
  lv ∅ 0 = GlogModule /\ lv ∅ 2 = NoOpObject.
Proof.
  split.
  - exact (lv_without_DEBUG ∅ 0 (lookup_empty _)).
  - exact (lv_without_DEBUG ∅ 2 (lookup_empty _)).
Defined.

(** X16.  With [DEBUG] set to the empty text every [lv(v)] is the no-op
    object, [lv(0)] included: no decimal text is below the empty one. *)
Theorem lv_with_empty_DEBUG (environ : gmap string string) (v : Z) :
  environ !! "DEBUG" = Some "" ->
  lv environ v = NoOpObject.
Proof.
  intros Henv. unfold lv. rewrite Henv. simpl.
  destruct v as [|p|p].
  - done.
  - by destruct (pretty_pos_head p) as (d & t & -> & Hd).
  - by destruct (pretty_neg_head p) as (t & ->).
Qed.

Lemma lv_with_empty_DEBUG_witness :
  lv {["DEBUG" := ""]} 0 = NoOpObject.
Proof.
  exact (lv_with_empty_DEBUG {["DEBUG" := ""]} 0 (lookup_singleton_eq _ _)).
Defined.

(** X17.  The levels are compared as text, not as numbers.  With [DEBUG]
    set to one digit [d], [lv(v)] is the module exactly for [v <= d] as
    long as [v] is one digit too; but for [d >= 2] it is also the module
    for every [v] from 10 to 19, which is larger than [d]. *)
Theorem lv_compares_text (environ : gmap string string) (d v : Z) :
  0 <= d <= 9 ->
  environ !! "DEBUG" = Some (pretty d) ->
  (0 <= v <= 9 -> (lv environ v = GlogModule <-> v <= d))
  /\ (2 <= d -> 10 <= v <= 19 -> lv environ v = GlogModule).
Proof.
  intros Hd Henv. unfold lv. rewrite Henv.
  assert (d = 0 \/ d = 1 \/ d = 2 \/ d = 3 \/ d = 4 \/ d = 5 \/ d = 6
          \/ d = 7 \/ d = 8 \/ d = 9) as Hdc by lia.
  split.
  - intros Hv.
    assert (v = 0 \/ v = 1 \/ v = 2 \/ v = 3 \/ v = 4 \/ v = 5 \/ v = 6
            \/ v = 7 \/ v = 8 \/ v = 9) as Hvc by lia.
    clear Hd Hv Henv.
    repeat destruct Hdc as [->|Hdc]; try rewrite Hdc;
      repeat destruct Hvc as [->|Hvc]; try rewrite Hvc;
      vm_compute; split; (done || (intros; exfalso; auto) || (intros _; congruence)).
  - intros Hd2 Hv.
    assert (v = 10 \/ v = 11 \/ v = 12 \/ v = 13 \/ v = 14 \/ v = 15
            \/ v = 16 \/ v = 17 \/ v = 18 \/ v = 19) as Hvc by lia.
    assert (d = 2 \/ d = 3 \/ d = 4 \/ d = 5 \/ d = 6 \/ d = 7 \/ d = 8
            \/ d = 9) as Hdc2 by lia.
    clear Hd Hv Henv Hdc Hd2.
    repeat destruct Hdc2 as [->|Hdc2]; try rewrite Hdc2;
      repeat destruct Hvc as [->|Hvc]; try rewrite Hvc; reflexivity.
Qed.

Lemma lv_compares_text_witness :
  lv {["DEBUG" := "9"]} 10 = GlogModule.
Proof.
  destruct (lv_compares_text {["DEBUG" := "9"]} 9 10 ltac:(lia)
              (lookup_singleton_eq _ _)) as [_ Hw].
  exact (Hw ltac:(lia) ltac:(lia)).
Defined.

(** ** The pattern for line prefixes *)

Lemma dict_set_new {V : Type} (k : Closure) (v : V) (d : list (Closure * V)) :
  Forall (fun kv => counter kv.1 <> counter k) d ->
  dict_set k v d = (d ++ [(k, v)])%list.
Proof.
  induction 1 as [|[k' v'] d Hk' _ IH]; [done|]. simpl in *.
  destruct (Nat.eqb_spec (counter k') (counter k)); [done|]. by rewrite IH.
Qed.

Lemma level_names_distinct (ws : Wrappers) :
  NoDup (counter <$> [DEBUG ws; INFO ws; WARN ws; ERROR ws; FATAL ws]) ->
  _level_names ws
  = [(DEBUG ws, "DEBUG"); (INFO ws, "INFO"); (WARN ws, "WARN");
     (ERROR ws, "ERROR"); (FATAL ws, "FATAL")].
Proof.
  rewrite !fmap_cons, fmap_nil, !NoDup_cons, !elem_of_cons, !elem_of_nil.
  intros (H1 & H2 & H3 & H4 & _). unfold _level_names.
  rewrite (dict_set_new (DEBUG ws) "DEBUG" []) by constructor.
  rewrite (dict_set_new (INFO ws))
    by (repeat (apply Forall_cons; split; [simpl; naive_solver|]);
        apply Forall_nil_2).
  rewrite (dict_set_new (WARN ws))
    by (repeat (apply Forall_cons; split; [simpl; naive_solver|]);
        apply Forall_nil_2).
  rewrite (dict_set_new (ERROR ws))
    by (repeat (apply Forall_cons; split; [simpl; naive_solver|]);
        apply Forall_nil_2).
  rewrite (dict_set_new (FATAL ws))
    by (repeat (apply Forall_cons; split; [simpl; naive_solver|]);
        apply Forall_nil_2).
  done.
Qed.

Lemma module_level_names (w0 : World) :
  let ws := fst (module_wrappers w0) in
  _level_names ws
  = [(DEBUG ws, "DEBUG"); (INFO ws, "INFO"); (WARN ws, "WARN");
     (ERROR ws, "ERROR"); (FATAL ws, "FATAL")].
Proof.
  cbn zeta. apply level_names_distinct. simpl. rewrite !length_app. simpl.
  repeat (apply NoDup_cons; split;
            [rewrite ?elem_of_cons, elem_of_nil; lia|]).
  apply NoDup_nil_2.
Qed.

Lemma module_prefix_pattern (w0 : World) :
  GLOG_PREFIX_REGEX (fst (module_wrappers w0)) = Ret (prefix_pattern "DIWEF").
Proof.
  unfold GLOG_PREFIX_REGEX, _level_letters.
  pose proof (module_level_names w0) as Hn. cbn zeta in Hn. by rewrite Hn.
Qed.

Lemma LEVEL_MAP_values (l : Z) (x : string) :
  LEVEL_MAP !! l = Some x -> x ∈ ["D"; "I"; "W"; "E"; "F"].
Proof.
  unfold LEVEL_MAP.
  rewrite !lookup_insert_Some, lookup_empty.
  intros [[_ <-]|[_ [[_ <-]|[_ [[_ <-]|[_ [[_ <-]|[_ [[_ <-]|[_ ?]]]]]]]]]];
    try done; rewrite !elem_of_cons; auto 10.
Qed.

(** X18.  The severity class of [GLOG_PREFIX_REGEX] is built from the first
    letters of the level names D, I, W, E, F, and these are exactly the
    letters [LEVEL_MAP] gives: every letter the formatter prints for a
    known level is in the class, every letter of the class is printed for
    some level, and the ["?"] of an unknown level is not in it. *)
Theorem level_letters_agree_with_LEVEL_MAP (w0 : World) :
  let ws := fst (module_wrappers w0) in
  _level_letters ws = Ret ["D"; "I"; "W"; "E"; "F"]
  /\ GLOG_PREFIX_REGEX ws = Ret (prefix_pattern "DIWEF")
  /\ (forall l x, LEVEL_MAP !! l = Some x -> x ∈ ["D"; "I"; "W"; "E"; "F"])
  /\ (forall x, x ∈ ["D"; "I"; "W"; "E"; "F"] ->
                exists l, LEVEL_MAP !! l = Some x)
  /\ "?" ∉ ["D"; "I"; "W"; "E"; "F"].
Proof.
  cbn zeta.
  split.
  { unfold _level_letters.
    pose proof (module_level_names w0) as Hn. cbn zeta in Hn. by rewrite Hn. }
  split; [apply module_prefix_pattern|].
  split; [apply LEVEL_MAP_values|]. split.
  - intros x. rewrite !elem_of_cons, elem_of_nil.
    intros [->|[->|[->|[->|[->|[]]]]]];
      [exists logging_DEBUG | exists logging_INFO | exists logging_WARN
       | exists logging_ERROR | exists logging_FATAL]; done.
  - rewrite !elem_of_cons, elem_of_nil. intros [|[|[|[|[|[]]]]]]; done.
Qed.

Lemma module_regex (w0 : World) (text : string) :
  re_match_prefix (fst (module_wrappers w0)) text
  = Ret (match_items (prefix_pattern "DIWEF") text).
Proof.
  unfold re_match_prefix. by rewrite module_prefix_pattern.
Qed.

Lemma string_app_nil_l (s : string) : "" ++ s = s.
Proof. reflexivity. Qed.

Lemma match_items_one (p : ascii -> bool) (items : list Item) (c : ascii)
    (s : string) :
  match_items (one p :: items) (String c s) = p c && match_items items s.
Proof. reflexivity. Qed.

Lemma match_items_plus (p : ascii -> bool) (items : list Item) (s : string) :
  match_items (plus p :: items) s = match_plus p (match_items items) s.
Proof. reflexivity. Qed.

Lemma match_items_opt (p : ascii -> bool) (items : list Item) (s : string) :
  match_items (opt p :: items) s
  = match s with
    | EmptyString => false
    | String c s' => p c && match_items items s'
    end || match_items items s.
Proof. reflexivity. Qed.

(** [x+] can take a whole run of characters of its class. *)
Lemma match_plus_all (p : ascii -> bool) (k : string -> bool) (t s : string) :
  string_forall p t = true -> t <> "" -> k s = true ->
  match_plus p k (t ++ s) = true.
Proof.
  intros Ht Hne Hk. induction t as [|c t IH]; [done|].
  simpl in Ht. apply andb_prop in Ht as [Hc Ht].
  rewrite string_app_cons. cbn [match_plus]. rewrite Hc. simpl.
  destruct t as [|c' t]; [change ("" ++ s) with s; by rewrite Hk|].
  rewrite IH by done. apply orb_true_r.
Qed.

(** [x+] must take the whole run when what follows the run cannot start
    inside it. *)
Lemma match_plus_forced (p : ascii -> bool) (k : string -> bool)
    (t s : string) :
  string_forall p t = true -> t <> "" ->
  (forall c u, p c = true -> k (String c u) = false) ->
  match_plus p k s = false ->
  match_plus p k (t ++ s) = k s.
Proof.
  intros Ht Hne Hk Hs. induction t as [|c t IH]; [done|].
  simpl in Ht. apply andb_prop in Ht as [Hc Ht].
  rewrite string_app_cons. cbn [match_plus]. rewrite Hc. simpl.
  destruct t as [|c' t]; [change ("" ++ s) with s; by rewrite Hs, orb_false_r|].
  rewrite IH by done. simpl in Ht. apply andb_prop in Ht as [Hc' _].
  rewrite string_app_cons, (Hk c' _ Hc'). done.
Qed.

Lemma all_digits_forall (s : string) :
  all_digits s = string_forall class_d s.
Proof. induction s as [|c s IH]; [done|]. simpl. by rewrite IH. Qed.

Lemma digit_not_space (c : ascii) : class_d c = true -> class_s c = false.
Proof. by destruct c as [[] [] [] [] [] [] [] []]. Qed.

Lemma digit_not_minus (c : ascii) :
  class_d c = true -> class_char "-" c = false.
Proof. by destruct c as [[] [] [] [] [] [] [] []]. Qed.

Lemma digits_exactly_2 (s : string) :
  digits_exactly 2 s ->
  exists a b, s = String a (String b "")
              /\ class_d a = true /\ class_d b = true.
Proof.
  intros [Hlen Hdig]. destruct s as [|a [|b [|c s]]]; try done.
  simpl in Hdig. apply andb_prop in Hdig as [Ha Hb].
  apply andb_prop in Hb as [Hb _]. by exists a, b.
Qed.

Lemma digits_exactly_6 (s : string) :
  digits_exactly 6 s ->
  exists a b c d e f,
    s = String a (String b (String c (String d (String e (String f "")))))
    /\ class_d a = true /\ class_d b = true /\ class_d c = true
    /\ class_d d = true /\ class_d e = true /\ class_d f = true.
Proof.
  intros [Hlen Hdig].
  destruct s as [|a [|b [|c [|d [|e [|f [|g s]]]]]]]; try done.
  simpl in Hdig.
  repeat (apply andb_prop in Hdig as [? Hdig]).
  by exists a, b, c, d, e, f.
Qed.

(** The decimal text of an integer: a sign or none, then digits. *)
Lemma pretty_Z_shape (n : Z) :
  exists sign digits,
    pretty n = sign ++ digits
    /\ (sign = "" /\ 0 <= n \/ sign = "-" /\ n < 0)
    /\ string_forall class_d digits = true /\ digits <> "".
Proof.
  assert (forall m, 0 <= m ->
            string_forall class_d (pretty m) = true /\ pretty m <> "") as Hpos.
  { intros m Hm.
    assert (m < 10 ^ Z.of_nat (S (Z.to_nat m))) as Hlt.
    { rewrite Nat2Z.inj_succ, Z2Nat.id by done.
      pose proof (Z.pow_gt_lin_r 10 (Z.succ m) ltac:(lia) ltac:(lia)). lia. }
    destruct (pretty_Z_digits (S (Z.to_nat m)) m ltac:(lia) (conj Hm Hlt))
      as [_ Hdig].
    split; [by rewrite <- all_digits_forall|].
    destruct m as [|p|p]; [done| |lia].
    by destruct (pretty_pos_head p) as (d & t & -> & _). }
  destruct n as [|p|p].
  - exists "", "0". repeat split; try done. left. by split.
  - exists "", (pretty (Z.pos p)). destruct (Hpos (Z.pos p) ltac:(lia)).
    repeat split; try done. left. by split.
  - exists "-", (pretty (Z.pos p)). destruct (Hpos (Z.pos p) ltac:(lia)).
    repeat split; try done. right. by split.
Qed.

Lemma level_letter_single (l : Z) :
  exists c, default "?" (LEVEL_MAP !! l) = String c "".
Proof.
  destruct (LEVEL_MAP !! l) as [x|] eqn:Hl; [|by exists "?"%char].
  apply LEVEL_MAP_values in Hl. simpl.
  rewrite !elem_of_cons, elem_of_nil in Hl.
  destruct Hl as [->|[->|[->|[->|[->|[]]]]]]; by eexists.
Qed.

(** The part of a formatted line up to the microseconds is matched by the
    first elements of the pattern as soon as the severity letter is in
    the class; what is left is the white space, the pid, the location. *)
Lemma pretty_N_go_length (width : nat) (x : N) (s : string) :
  (x < 10 ^ N.of_nat width)%N ->
  (String.length s <= String.length (pretty_N_go x s))%nat
  /\ (forall k : nat, (10 ^ N.of_nat k <= x)%N ->
        (String.length s + k + 1 <= String.length (pretty_N_go x s))%nat).
Proof.
  revert x s. induction width as [|width IH]; intros x s Hx.
  - assert (x = 0%N) as -> by (simpl in Hx; lia).
    rewrite pretty_N_go_0. split; [lia|]. intros k Hk.
    pose proof (N.pow_nonzero 10 (N.of_nat k) ltac:(lia)). lia.
  - destruct (decide (x = 0%N)) as [->|Hne].
    { rewrite pretty_N_go_0. split; [lia|]. intros k Hk.
      pose proof (N.pow_nonzero 10 (N.of_nat k) ltac:(lia)). lia. }
    rewrite pretty_N_go_step by lia.
    assert (x `div` 10 < 10 ^ N.of_nat width)%N as Hdiv.
    { apply N.Div0.div_lt_upper_bound.
      replace (N.of_nat (S width)) with (N.succ (N.of_nat width)) in Hx by lia.
      by rewrite N.pow_succ_r' in Hx. }
    destruct (IH (x `div` 10)%N (String (pretty_N_char (x `mod` 10)) s) Hdiv)
      as [Hlen Hge].
    split; [simpl in Hlen; lia|].
    intros [|k] Hk; [simpl in Hlen; lia|].
    assert (10 ^ N.of_nat k <= x `div` 10)%N as Hk'.
    { apply N.div_le_lower_bound; [lia|].
      replace (N.of_nat (S k)) with (N.succ (N.of_nat k)) in Hk by lia.
      by rewrite N.pow_succ_r' in Hk. }
    specialize (Hge k Hk'). simpl in Hge. lia.
Qed.

(** A number of a million or more takes at least 7 digits. *)
Lemma pretty_Z_long (n : Z) :
  1000000 <= n -> (7 <= String.length (pretty n))%nat.
Proof.
  intros Hn. destruct n as [|p|p]; [lia| |lia].
  unfold pretty, pretty_Z, pretty, pretty_positive, pretty, pretty_N.
  rewrite decide_False by done.
  assert (N.pos p < 10 ^ N.of_nat (N.to_nat (N.pos p)))%N as Hp.
  { rewrite N2Nat.id. apply N.pow_gt_lin_r. lia. }
  destruct (pretty_N_go_length _ (N.pos p) "" Hp) as [_ Hge].
  specialize (Hge 6%nat). simpl in Hge. apply Hge. lia.
Qed.

(** The microsecond field against [\d{6}\s+]: the six digits are there,
    and followed by the space, exactly when the number is in the range of
    six digits. *)
Lemma usec_field_match (z : Z) (items : list Item) (rest : string) :
  match_items (one class_d :: one class_d :: one class_d :: one class_d
               :: one class_d :: one class_d :: plus class_s :: items)
    (fmt_0d 6 z ++ String " " rest)
  = (0 <=? z) && (z <? 1000000)
    && match_items (plus class_s :: items) (String " " rest).
Proof.
  destruct (Z.lt_ge_cases z 0) as [Hneg|Hpos].
  { assert ((0 <=? z) = false) as -> by lia.
    unfold fmt_0d. assert ((z <? 0) = true) as -> by lia.
    by rewrite !string_app_cons, match_items_one. }
  assert ((0 <=? z) = true) as -> by lia.
  destruct (Z.lt_ge_cases z 1000000) as [Hlt|Hge].
  - assert ((z <? 1000000) = true) as -> by lia.
    destruct (digits_exactly_6 _ (fmt_0d_digits 6 z ltac:(lia) ltac:(simpl; lia)))
      as (u1 & u2 & u3 & u4 & u5 & u6 & -> & Hu1 & Hu2 & Hu3 & Hu4 & Hu5 & Hu6).
    repeat (rewrite string_app_cons || rewrite string_app_nil_l).
    repeat rewrite match_items_one.
    by rewrite Hu1, Hu2, Hu3, Hu4, Hu5, Hu6.
  - assert ((z <? 1000000) = false) as -> by lia.
    pose proof (pretty_Z_long z Hge) as Hlen.
    unfold fmt_0d. assert ((z <? 0) = false) as -> by lia.
    rewrite Z.abs_eq by lia.
    replace (6 - String.length "" - String.length (pretty z))%nat with 0%nat
      by (simpl; lia).
    simpl zeros. rewrite !string_app_nil_l.
    destruct (pretty_Z_shape z)
      as (sign & digits & Hz & [[-> _]|[_ ?]] & Hdig & _); [|lia].
    rewrite Hz, string_app_nil_l in Hlen |- *.
    destruct digits as [|u1 [|u2 [|u3 [|u4 [|u5 [|u6 [|u7 t]]]]]]];
      try (simpl in Hlen; lia).
    simpl in Hdig.
    repeat (apply andb_prop in Hdig as [? Hdig]).
    repeat rewrite string_app_cons. repeat rewrite match_items_one.
    rewrite match_items_plus. cbn [match_plus].
    rewrite (digit_not_space u7) by done.
    by repeat rewrite andb_false_r.
Qed.

Lemma format_line_shape `{Platform} (outer : FrameSummary)
    (stack : list FrameSummary) (record : LogRecord) (m : string) :
  struct_time_valid (time_localtime (created record)) ->
  format_message record = Ret m ->
  let usec := py_int (date_usec (created record)) in
  exists l text,
    default "?" (LEVEL_MAP !! levelno record) = String l ""
    /\ format (outer :: stack) record = Ret text
    /\ forall letters,
         match_items (prefix_pattern letters) text
         = string_mem l letters
           && ((0 <=? usec) && (usec <? 1000000)
               && match_items (drop 21 (prefix_pattern letters))
                    (String " "
                       (match process record with
                        | Some p => pretty p
                        | None => "?????"
                        end
                        ++ String " "
                             (filename outer
                              ++ String ":"
                                   (pretty (f_lineno outer)
                                    ++ String "]" (String " " m)))))).
Proof.
  intros Hvalid Hm. cbn zeta.
  pose proof (format_unfold outer stack record m Hm) as Hfmt.
  cbn zeta in Hfmt.
  destruct Hvalid as (Hmon & Hday & Hhour & Hmin & Hsec).
  assert (digits_exactly 2 (fmt_0d 2 (tm_mon (time_localtime (created record)))))
    as Hmm by (apply fmt_0d_digits; [lia|simpl; lia]).
  assert (digits_exactly 2 (fmt_0d 2 (tm_mday (time_localtime (created record)))))
    as Hdd by (apply fmt_0d_digits; [lia|simpl; lia]).
  assert (digits_exactly 2 (fmt_0d 2 (tm_hour (time_localtime (created record)))))
    as Hhh by (apply fmt_0d_digits; [lia|simpl; lia]).
  assert (digits_exactly 2 (fmt_0d 2 (tm_min (time_localtime (created record)))))
    as Hmi by (apply fmt_0d_digits; [lia|simpl; lia]).
  assert (digits_exactly 2 (fmt_0d 2 (tm_sec (time_localtime (created record)))))
    as Hss by (apply fmt_0d_digits; [lia|simpl; lia]).
  destruct (level_letter_single (levelno record)) as [l Hl].
  destruct (digits_exactly_2 _ Hmm) as (a1 & a2 & Ea & Ha1 & Ha2).
  destruct (digits_exactly_2 _ Hdd) as (b1 & b2 & Eb & Hb1 & Hb2).
  destruct (digits_exactly_2 _ Hhh) as (c1 & c2 & Ec & Hc1 & Hc2).
  destruct (digits_exactly_2 _ Hmi) as (d1 & d2 & Ed & Hd1 & Hd2).
  destruct (digits_exactly_2 _ Hss) as (e1 & e2 & Ee & He1 & He2).
  rewrite Hl, Ea, Eb, Ec, Ed, Ee in Hfmt.
  set (us := fmt_0d 6 (py_int (date_usec (created record)))) in *.
  exists l. eexists. split; [done|]. split; [exact Hfmt|].
  intros letters. unfold glog_line, prefix_pattern.
  repeat (rewrite string_app_cons || rewrite string_app_nil_l).
  repeat rewrite match_items_one.
  rewrite Ha1, Ha2, Hb1, Hb2, Hc1, Hc2, Hd1, Hd2, He1, He2.
  unfold us. rewrite usec_field_match. reflexivity.
Qed.

(** X19.  Round trip of the formatter through the pattern, for an
    interpreter that compiles the pattern ([re_match_prefix]).  Take a
    record created at or after the epoch (its time a double), whose time
    fields are in the ranges [time.localtime] gives, whose message formats,
    with a known level and a process id; format it while the outermost
    frame has a file name of the form the pattern expects (a letter, ["<"]
    or ["_"], then one or more of letters, digits and [._<>-]) and a line
    number that is not negative.  Then the line is matched by
    [GLOG_PREFIX_REGEX]. *)
Theorem formatted_line_matches_pattern `{Platform} (w0 : World)
    (outer : FrameSummary) (stack : list FrameSummary) (record : LogRecord)
    (m : string) (pid : Z) (c0 : ascii) (file_rest : string) :
  struct_time_valid (time_localtime (created record)) ->
  (0 <= created record)%Q ->
  is_double (created record) ->
  format_message record = Ret m ->
  levelno record ∈ [logging_DEBUG; logging_INFO; logging_WARN;
                    logging_ERROR; logging_FATAL] ->
  process record = Some pid ->
  filename outer = String c0 file_rest ->
  class_file_first c0 = true ->
  string_forall class_file_rest file_rest = true ->
  file_rest <> "" ->
  0 <= f_lineno outer ->
  exists text,
    format (outer :: stack) record = Ret text
    /\ re_match_prefix (fst (module_wrappers w0)) text = Ret true.
Proof.
  intros Hvalid Ht Hdbl Hm Hlevel Hpid Hfile Hc0 Hrest Hne Hline.
  destruct (format_line_shape outer stack record m Hvalid Hm)
    as (l & text & Hl & Hfmt & Hmatch).
  exists text. split; [done|].
  rewrite module_regex, Hmatch. f_equal.
  assert (string_mem l "DIWEF" = true) as ->.
  { rewrite !elem_of_cons, elem_of_nil in Hlevel.
    destruct Hlevel as [Hv|[Hv|[Hv|[Hv|[Hv|[]]]]]]; rewrite Hv in Hl;
      by injection Hl as <-. }
  pose proof (date_usec_range (created record) Ht Hdbl) as Husec.
  assert ((0 <=? py_int (date_usec (created record))) = true) as -> by lia.
  assert ((py_int (date_usec (created record)) <? 1000000) = true) as ->
    by lia.
  rewrite Hpid, Hfile. simpl drop. cbn [andb].
  rewrite match_items_plus. cbn [match_plus].
  assert (class_s " " = true) as -> by done. cbn [andb].
  apply orb_true_intro. left.
  assert (match_items
            [one class_s; one class_file_first; plus class_file_rest;
             one (class_char ":"); plus class_d; one (class_char "]");
             one class_s]
            (String " "
               (String c0 file_rest
                ++ String ":"
                     (pretty (f_lineno outer) ++ String "]" (String " " m))))
          = true) as Hloc.
  { rewrite match_items_one. apply andb_true_intro. split; [done|].
    rewrite string_app_cons, match_items_one, Hc0. cbn [andb].
    rewrite match_items_plus. apply match_plus_all; [done|done|].
    rewrite match_items_one. apply andb_true_intro. split; [done|].
    rewrite match_items_plus.
    destruct (pretty_Z_shape (f_lineno outer))
      as (sign & digits & -> & [[-> _]|[_ ?]] & Hdig & Hdne); [|lia].
    rewrite string_app_nil_l. apply match_plus_all; [done|done|].
    done. }
  destruct (pretty_Z_shape pid)
    as (sign & digits & -> & [[-> _]|[-> _]] & Hdig & Hdne).
  - rewrite string_app_nil_l, match_items_opt. apply orb_true_intro. right.
    rewrite match_items_plus. by apply match_plus_all.
  - rewrite string_app_assoc, string_app_cons, string_app_nil_l.
    rewrite match_items_opt. apply orb_true_intro. left.
    apply andb_true_intro. split; [done|].
    rewrite match_items_plus. by apply match_plus_all.
Qed.

Lemma formatted_line_matches_pattern_witness :
  exists text,
    @format example_platform
      [{| filename := "main.py"; f_lineno := 30; f_name := "<module>";
          line := "run()" |}]
      {| name := "root"; levelno := logging_INFO; pathname := "main.py";
         lineno := 12; msg := "hello %s %s"; args := ArgsTuple [PyStr "world"];
         created := (1782579200129453 # 1048576)%Q;
         process := Some 4242 |} = Ret text
    /\ re_match_prefix (fst (module_wrappers example_world)) text = Ret true.
Proof.
  exact (@formatted_line_matches_pattern example_platform example_world
           {| filename := "main.py"; f_lineno := 30; f_name := "<module>";
              line := "run()" |} []
           {| name := "root"; levelno := logging_INFO; pathname := "main.py";
              lineno := 12; msg := "hello %s %s";
              args := ArgsTuple [PyStr "world"];
              created := (1782579200129453 # 1048576)%Q;
              process := Some 4242 |}
           "hello %s %s" 4242 "m"%char "ain.py"
           ltac:(repeat split; simpl; lia)
           ltac:(vm_compute; discriminate)
           ltac:(vm_compute; reflexivity)
           eq_refl
           ltac:(rewrite !elem_of_cons; auto)
           eq_refl eq_refl eq_refl eq_refl
           ltac:(discriminate)
           ltac:(simpl; lia)).
Defined.

(** X20.  A line formatted for a record without a process id carries
    ["?????"] where the pattern wants an integer: [GLOG_PREFIX_REGEX] does
    not match it, whatever the level, the file and the message. *)
Theorem line_without_pid_does_not_match `{Platform} (w0 : World)
    (outer : FrameSummary) (stack : list FrameSummary) (record : LogRecord)
    (m : string) :
  struct_time_valid (time_localtime (created record)) ->
  (0 <= created record)%Q ->
  format_message record = Ret m ->
  process record = None ->
  exists text,
    format (outer :: stack) record = Ret text
    /\ re_match_prefix (fst (module_wrappers w0)) text = Ret false.
Proof.
  intros Hvalid Ht Hm Hpid.
  destruct (format_line_shape outer stack record m Hvalid Hm)
    as (l & text & Hl & Hfmt & Hmatch).
  exists text. split; [done|].
  rewrite module_regex, Hmatch, Hpid. f_equal.
  apply andb_false_intro2, andb_false_intro2. reflexivity.
Qed.

Lemma line_without_pid_does_not_match_witness :
  exists text,
    @format example_platform [example_top; example_site] example_record
      = Ret text
    /\ re_match_prefix (fst (module_wrappers example_world)) text = Ret false.
Proof.
  exact (@line_without_pid_does_not_match example_platform example_world
           example_top [example_site] example_record "hello %s %s"
           ltac:(repeat split; simpl; lia)
           ltac:(vm_compute; discriminate)
           eq_refl eq_refl).
Defined.

(** X21.  A line formatted for a level that [LEVEL_MAP] does not know
    starts with ["?"], which is not a letter of the severity class:
    [GLOG_PREFIX_REGEX] does not match it. *)
Theorem line_of_unknown_level_does_not_match `{Platform} (w0 : World)
    (outer : FrameSummary) (stack : list FrameSummary) (record : LogRecord)
    (m : string) :
  format_message record = Ret m ->
  LEVEL_MAP !! levelno record = None ->
  exists text,
    format (outer :: stack) record = Ret text
    /\ re_match_prefix (fst (module_wrappers w0)) text = Ret false.
Proof.
  intros Hm Hlevel.
  pose proof (format_unfold outer stack record m Hm) as Hfmt.
  cbn zeta in Hfmt. rewrite Hlevel in Hfmt.
  eexists. split; [exact Hfmt|].
  rewrite module_regex. unfold glog_line. simpl default.
  rewrite string_app_cons. unfold prefix_pattern.
  by rewrite match_items_one.
Qed.

Lemma line_of_unknown_level_does_not_match_witness :
  exists text,
    @format example_platform [example_top]
      {| name := "root"; levelno := 25; pathname := "main.py"; lineno := 3;
         msg := "note"; args := ArgsTuple []; created := 0;
         process := Some 1 |} = Ret text
    /\ re_match_prefix (fst (module_wrappers example_world)) text = Ret false.
Proof.
  exact (@line_of_unknown_level_does_not_match example_platform example_world
           example_top []
           {| name := "root"; levelno := 25; pathname := "main.py";
              lineno := 3; msg := "note"; args := ArgsTuple [];
              created := 0; process := Some 1 |}
           "note" eq_refl eq_refl).
Defined.

(** X22.  The pattern takes no ["/"] at the start of the file name: a line
    formatted while the outermost frame has an absolute path as its file
    is not matched by [GLOG_PREFIX_REGEX]. *)
Theorem line_with_absolute_path_does_not_match `{Platform} (w0 : World)
    (outer : FrameSummary) (stack : list FrameSummary) (record : LogRecord)
    (m : string) (pid : Z) (path : string) :
  struct_time_valid (time_localtime (created record)) ->
  (0 <= created record)%Q ->
  format_message record = Ret m ->
  process record = Some pid ->
  filename outer = String "/" path ->
  exists text,
    format (outer :: stack) record = Ret text
    /\ re_match_prefix (fst (module_wrappers w0)) text = Ret false.
Proof.
  intros Hvalid Ht Hm Hpid Hfile.
  destruct (format_line_shape outer stack record m Hvalid Hm)
    as (l & text & Hl & Hfmt & Hmatch).
  exists text. split; [done|].
  rewrite module_regex, Hmatch, Hpid, Hfile. f_equal.
  apply andb_false_intro2, andb_false_intro2. simpl drop.
  set (tail := String " " (String "/" path ++ _)).
  set (loc := [one class_s; one class_file_first; plus class_file_rest;
               one (class_char ":"); plus class_d; one (class_char "]");
               one class_s]).
  assert (match_items loc tail = false) as Hloc by reflexivity.
  assert (forall c u, class_d c = true -> match_items loc (String c u) = false)
    as Hk.
  { intros c u Hc. unfold loc. by rewrite match_items_one, digit_not_space. }
  assert (forall digits, string_forall class_d digits = true -> digits <> "" ->
            match_items (plus class_d :: loc) (digits ++ tail) = false)
    as Hdigits.
  { intros digits Hdig Hdne. rewrite match_items_plus.
    rewrite match_plus_forced; done. }
  rewrite match_items_plus. cbn [match_plus].
  assert (class_s " " = true) as -> by done. cbn [andb].
  destruct (pretty_Z_shape pid)
    as (sign & digits & -> & [[-> _]|[-> _]] & Hdig & Hdne).
  - rewrite string_app_nil_l.
    destruct digits as [|d digits]; [done|].
    simpl in Hdig. apply andb_prop in Hdig as [Hd Hdig].
    assert (string_forall class_d (String d digits) = true) as Hall
      by (simpl; by rewrite Hd, Hdig).
    apply orb_false_intro.
    + rewrite match_items_opt, Hdigits by done.
      rewrite string_app_cons, digit_not_minus by done. done.
    + rewrite string_app_cons. cbn [match_plus].
      by rewrite digit_not_space.
  - rewrite string_app_assoc, string_app_cons, string_app_nil_l.
    apply orb_false_intro.
    + rewrite match_items_opt. rewrite Hdigits by done.
      rewrite match_items_plus. cbn [match_plus]. done.
    + cbn [match_plus]. done.
Qed.

Lemma line_with_absolute_path_does_not_match_witness :
  exists text,
    @format example_platform [example_top; example_site]
      {| name := "root"; levelno := logging_INFO;
         pathname := "/home/user/app/main.py"; lineno := 12; msg := "hello";
         args := ArgsTuple []; created := 5; process := Some 4242 |}
      = Ret text
    /\ re_match_prefix (fst (module_wrappers example_world)) text = Ret false.
Proof.
  exact (@line_with_absolute_path_does_not_match example_platform
           example_world example_top [example_site]
           {| name := "root"; levelno := logging_INFO;
              pathname := "/home/user/app/main.py"; lineno := 12;
              msg := "hello"; args := ArgsTuple []; created := 5;
              process := Some 4242 |}
           "hello" 4242 "home/user/app/main.py"
           ltac:(repeat split; simpl; lia)
           ltac:(vm_compute; discriminate)
           eq_refl eq_refl eq_refl).
Defined.
